(** * Hyperagent: the multi-bot question-answering state machine

    A shallow embedding of [src/AI/hyperagent.py]: the conversation model
    [MultiGenieModel], the capture functions and the guard of
    [MultiGenieMachine], and the transition table the class declares,
    followed by the properties of the orchestration that the design
    document states.

    Python values are embedded as the inductive type [value]; a Python
    exception is an explicit [Raise] result; a method that mutates
    [self.model] is a function from the model to the new model and the
    outcome of the call. *)

From Stdlib Require Import ZArith Ascii String List Bool Lia.
From stdpp Require Import base option list strings gmap.

Local Open Scope string_scope.
Local Open Scope Z_scope.

(** ** Exceptions and results *)

(** The exceptions the program can meet.  [InvalidTransition] is the
    design document's name for the error the state-machine engine raises
    when no transition can be taken ([TransitionNotAllowed] in
    python-statemachine). *)
Inductive exn : Set :=
| JSONDecodeError
| KeyError
| TypeError
| AttributeError
| IndexError
| RecursionError
| ValueError
| InvalidTransition.

Inductive result (A : Type) : Type :=
| Ok (a : A)
| Raise (e : exn).

Arguments Ok {A} a.
Arguments Raise {A} e.

#[global] Instance result_ret : MRet result := fun A a => Ok a.
#[global] Instance result_bind : MBind result := fun A B f r =>
  match r with
  | Ok a => f a
  | Raise e => Raise e
  end.
#[global] Instance result_fmap : FMap result := fun A B f r =>
  match r with
  | Ok a => Ok (f a)
  | Raise e => Raise e
  end.

(** ** Python values *)

(** The values [json.loads] produces.  A [str] is the string of its
    UTF-8 bytes.  A [dict] is the list of its items in insertion order,
    with no key repeated.  A float keeps the decimal [m * 10^e] it was
    written as: the program only ever tests a number for truth. *)
#[local] Unset Elimination Schemes.
Inductive value : Type :=
| VNone
| VBool (b : bool)
| VInt (z : Z)
| VFloat (m e : Z)
| VNaN
| VInf (negative : bool)
| VStr (s : string)
| VList (l : list value)
| VDict (d : list (string * value)).
#[local] Set Elimination Schemes.

Module Py.

(** [d[k]] on the items of a dict. *)
Fixpoint dict_get (d : list (string * value)) (k : string) : option value :=
  match d with
  | [] => None
  | (k', v) :: d' => if String.eqb k' k then Some v else dict_get d' k
  end.

(** [d[k] = v]: an existing key keeps its place, a new one is appended. *)
Fixpoint dict_set (d : list (string * value)) (k : string) (v : value)
  : list (string * value) :=
  match d with
  | [] => [(k, v)]
  | (k', v') :: d' =>
      if String.eqb k' k then (k', v) :: d' else (k', v') :: dict_set d' k v
  end.

(** A decimal [m * 10^e] rounds to the float zero when it is at most
    half the least positive double, [2^-1075]. *)
Definition float_is_zero (m e : Z) : bool :=
  (m =? 0) || ((e <? 0) && (Z.abs m * 2 ^ 1075 <=? 10 ^ (- e))).

(** A byte that continues a UTF-8 sequence ([10xxxxxx]). *)
Definition is_continuation (c : ascii) : bool :=
  let n := N_of_ascii c in ((128 <=? n) && (n <? 192))%N.

(** The characters of a [str], each as the string of its bytes: a byte
    and the continuation bytes that follow it. *)
Fixpoint str_chars (s : string) : list string :=
  match s with
  | EmptyString => []
  | String c s' =>
      match s' with
      | EmptyString => [String c EmptyString]
      | String c' _ =>
          if is_continuation c' then
            match str_chars s' with
            | x :: xs => String c x :: xs
            | [] => [String c EmptyString]
            end
          else String c EmptyString :: str_chars s'
      end
  end.

(** Truth value of an object ([bool(v)]). *)
Definition truthy (v : value) : bool :=
  match v with
  | VNone => false
  | VBool b => b
  | VInt z => negb (z =? 0)
  | VFloat m e => negb (float_is_zero m e)
  | VNaN | VInf _ => true
  | VStr s => negb (String.eqb s "")
  | VList l => match l with [] => false | _ => true end
  | VDict d => match d with [] => false | _ => true end
  end.

(** [v[k]] for a [str] key [k]. *)
Definition getitem (v : value) (k : string) : result value :=
  match v with
  | VDict d =>
      match dict_get d k with
      | Some x => Ok x
      | None => Raise KeyError
      end
  | _ => Raise TypeError
  end.

(** [v[0]]. *)
Definition getitem0 (v : value) : result value :=
  match v with
  | VList l =>
      match l with
      | x :: _ => Ok x
      | [] => Raise IndexError
      end
  | VStr s =>
      match str_chars s with
      | c :: _ => Ok (VStr c)
      | [] => Raise IndexError
      end
  | VDict _ => Raise KeyError
  | _ => Raise TypeError
  end.

Definition is_str (k : string) (v : value) : bool :=
  match v with
  | VStr s => String.eqb s k
  | _ => false
  end.

(** Whether [k] occurs in [s] as a substring. *)
Fixpoint substring_of (k s : string) : bool :=
  String.prefix k s
  || match s with
     | EmptyString => false
     | String _ s' => substring_of k s'
     end.

(** [k in v] for a [str] [k]. *)
Definition contains (k : string) (v : value) : result bool :=
  match v with
  | VDict d => Ok (bool_decide (is_Some (dict_get d k)))
  | VList l => Ok (existsb (is_str k) l)
  | VStr s => Ok (substring_of k s)
  | _ => Raise TypeError
  end.

(** [len(v)]. *)
Definition len (v : value) : result nat :=
  match v with
  | VList l => Ok (List.length l)
  | VDict d => Ok (List.length d)
  | VStr s => Ok (List.length (str_chars s))
  | _ => Raise TypeError
  end.

(** The elements [for n in v] goes through. *)
Definition iter (v : value) : result (list value) :=
  match v with
  | VList l => Ok l
  | VDict d => Ok (List.map (fun kv => VStr (fst kv)) d)
  | VStr s => Ok (List.map VStr (str_chars s))
  | _ => Raise TypeError
  end.

(** [v.items()]. *)
Definition items (v : value) : result (list (string * value)) :=
  match v with
  | VDict d => Ok d
  | _ => Raise AttributeError
  end.

(** [s.split(sep)] for a one-character separator. *)
Fixpoint split (sep : ascii) (s : string) : list string :=
  match s with
  | EmptyString => [EmptyString]
  | String c s' =>
      if Ascii.eqb c sep then EmptyString :: split sep s'
      else
        match split sep s' with
        | [] => [String c EmptyString]
        | x :: xs => String c x :: xs
        end
  end.

(** [s.replace(c, "")] for a one-character [c]. *)
Fixpoint remove (c : ascii) (s : string) : string :=
  match s with
  | EmptyString => EmptyString
  | String c' s' =>
      if Ascii.eqb c' c then remove c s' else String c' (remove c s')
  end.

(** [sep.join(l)]. *)
Fixpoint join (sep : ascii) (l : list string) : string :=
  match l with
  | [] => EmptyString
  | [x] => x
  | x :: l' => x ++ String sep (join sep l')
  end.

End Py.

(** ** The JSON decoder

    [json.loads] of the Python standard library, on a [str] given by its
    UTF-8 bytes: white space, the literals (with Python's [NaN],
    [Infinity] and [-Infinity]), numbers, strings with their escapes,
    arrays and objects.  A text it does not accept raises
    [JSONDecodeError]; arrays and objects nested deeper than the
    interpreter allows raise [RecursionError], and an integer of more
    digits than the interpreter converts raises [ValueError], neither of
    which is a [JSONDecodeError]. *)
Module json.

Definition is_ws (c : ascii) : bool :=
  let n := N_of_ascii c in
  ((n =? 32) || (n =? 9) || (n =? 10) || (n =? 13))%N.

Fixpoint skip_ws (s : string) : string :=
  match s with
  | String c s' => if is_ws c then skip_ws s' else s
  | EmptyString => s
  end.

Definition is_digit (c : ascii) : bool :=
  let n := N_of_ascii c in ((48 <=? n) && (n <=? 57))%N.

(** The longest prefix of digits, and what follows it. *)
Fixpoint span_digits (s : string) : string * string :=
  match s with
  | String c s' =>
      if is_digit c then
        let (ds, r) := span_digits s' in (String c ds, r)
      else (EmptyString, s)
  | EmptyString => (EmptyString, s)
  end.

Fixpoint digits_value (acc : Z) (ds : string) : Z :=
  match ds with
  | String c ds' => digits_value (10 * acc + (Z.of_N (N_of_ascii c) - 48)) ds'
  | EmptyString => acc
  end.

Definition signed (negative : bool) (z : Z) : Z :=
  if negative then - z else z.

(** The fraction [.ddd], taken only when a digit follows the point. *)
Definition scan_fraction (s : string) : string * string :=
  match s with
  | String "." r =>
      let (fs, r') := span_digits r in
      if String.eqb fs "" then ("", s) else (fs, r')
  | _ => ("", s)
  end.

(** The exponent [e±ddd], taken only when it has a digit. *)
Definition scan_exponent (s : string) : option Z * string :=
  match s with
  | String c r =>
      if Ascii.eqb c "e" || Ascii.eqb c "E" then
        let (negative, r1) :=
          match r with
          | String "-" r1 => (true, r1)
          | String "+" r1 => (false, r1)
          | _ => (false, r)
          end in
        let (es, r2) := span_digits r1 in
        if String.eqb es "" then (None, s)
        else (Some (signed negative (digits_value 0 es)), r2)
      else (None, s)
  | EmptyString => (None, s)
  end.

(** The most digits an integer may have ([sys.get_int_max_str_digits()],
    4300 unless it is changed). *)
Definition int_max_str_digits : nat := 4300.

(** The deepest arrays and objects may nest ([sys.getrecursionlimit()],
    1000 unless it is changed; the frames of the caller come off it). *)
Definition recursion_limit : nat := 1000.

(** A number: an optional minus sign, then a lone zero or digits that
    start with a non-zero one, then the optional fraction and exponent.
    With neither it is an [int], which must not have too many digits,
    otherwise a [float]. *)
Definition scan_number (s : string) : result (value * string) :=
  let (negative, s1) :=
    match s with
    | String "-" r => (true, r)
    | _ => (false, s)
    end in
  let integer : option (string * string) :=
    match s1 with
    | String "0" r => Some ("0", r)
    | String c _ => if is_digit c then Some (span_digits s1) else None
    | EmptyString => None
    end in
  match integer with
  | None => Raise JSONDecodeError
  | Some (ds, r) =>
      let (fs, r1) := scan_fraction r in
      let (ex, r2) := scan_exponent r1 in
      match fs, ex with
      | EmptyString, None =>
          if (int_max_str_digits <? String.length ds)%nat then Raise ValueError
          else Ok (VInt (signed negative (digits_value 0 ds)), r2)
      | _, _ =>
          Ok (VFloat (signed negative (digits_value 0 (ds ++ fs)))
                     (default 0 ex - Z.of_nat (String.length fs)), r2)
      end
  end.

Definition hex_digit (c : ascii) : option N :=
  let n := N_of_ascii c in
  if ((48 <=? n) && (n <=? 57))%N then Some (n - 48)%N
  else if ((97 <=? n) && (n <=? 102))%N then Some (n - 87)%N
  else if ((65 <=? n) && (n <=? 70))%N then Some (n - 55)%N
  else None.

(** The four hexadecimal digits of a [\uXXXX] escape. *)
Definition hex4 (s : string) : option (N * string) :=
  match s with
  | String a (String b (String c (String d r))) =>
      match hex_digit a, hex_digit b, hex_digit c, hex_digit d with
      | Some x, Some y, Some z, Some w =>
          Some (((x * 16 + y) * 16 + z) * 16 + w, r)%N
      | _, _, _, _ => None
      end
  | _ => None
  end.

Definition byte (n : N) : ascii := ascii_of_N n.

(** The UTF-8 bytes of a code point (a lone surrogate is written the
    same way, on three bytes). *)
Definition utf8 (cp : N) : string :=
  (if cp <? 128 then String (byte cp) ""
   else if cp <? 2048 then
     String (byte (192 + cp / 64)) (String (byte (128 + cp mod 64)) "")
   else if cp <? 65536 then
     String (byte (224 + cp / 4096))
       (String (byte (128 + (cp / 64) mod 64))
          (String (byte (128 + cp mod 64)) ""))
   else
     String (byte (240 + cp / 262144))
       (String (byte (128 + (cp / 4096) mod 64))
          (String (byte (128 + (cp / 64) mod 64))
             (String (byte (128 + cp mod 64)) ""))))%N.

Definition is_high_surrogate (cp : N) : bool := ((55296 <=? cp) && (cp <=? 56319))%N.
Definition is_low_surrogate (cp : N) : bool := ((56320 <=? cp) && (cp <=? 57343))%N.

(** The character a one-letter escape stands for: the quote, the
    backslash and the slash stand for themselves, and [b], [f], [n],
    [r], [t] for a control character. *)
Definition simple_escape (c : ascii) : option ascii :=
  let n := N_of_ascii c in
  if ((n =? 34) || (n =? 92) || (n =? 47))%N then Some c
  else if (n =? 98)%N then Some (byte 8)
  else if (n =? 102)%N then Some (byte 12)
  else if (n =? 110)%N then Some (byte 10)
  else if (n =? 114)%N then Some (byte 13)
  else if (n =? 116)%N then Some (byte 9)
  else None.

(** A [\uXXXX] escape, after the [u]: the code point and the rest.  A
    high surrogate directly followed by the escape of a low surrogate
    is joined with it. *)
Definition scan_unicode (s : string) : option (N * string) :=
  match hex4 s with
  | None => None
  | Some (cp, r) =>
      if is_high_surrogate cp then
        match r with
        | String "\" (String "u" r1) =>
            match hex4 r1 with
            | None => None
            | Some (cp2, r2) =>
                if is_low_surrogate cp2 then
                  Some (65536 + (cp - 55296) * 1024 + (cp2 - 56320), r2)%N
                else Some (cp, r)
            end
        | _ => Some (cp, r)
        end
      else Some (cp, r)
  end.

(** A string, after its opening quote: the text and what follows the
    closing quote.  A control character is refused (strict mode). *)
Fixpoint scanstring (fuel : nat) (s : string) : option (string * string) :=
  match fuel with
  | O => None
  | S fuel' =>
      match s with
      | EmptyString => None
      | String c r =>
          if (N_of_ascii c =? 34)%N then Some ("", r)
          else if (N_of_ascii c =? 92)%N then
            match r with
            | EmptyString => None
            | String e r' =>
                if Ascii.eqb e "u" then
                  match scan_unicode r' with
                  | None => None
                  | Some (cp, r'') =>
                      match scanstring fuel' r'' with
                      | None => None
                      | Some (t, rest) => Some (utf8 cp ++ t, rest)
                      end
                  end
                else
                  match simple_escape e with
                  | None => None
                  | Some ch =>
                      match scanstring fuel' r' with
                      | None => None
                      | Some (t, rest) => Some (String ch t, rest)
                      end
                  end
            end
          else if (N_of_ascii c <=? 31)%N then None
          else
            match scanstring fuel' r with
            | None => None
            | Some (t, rest) => Some (String c t, rest)
            end
      end
  end.

(** [rest] when [s] is [p ++ rest]. *)
Fixpoint strip_prefix (p s : string) : option string :=
  match p with
  | EmptyString => Some s
  | String c p' =>
      match s with
      | String c' s' => if Ascii.eqb c c' then strip_prefix p' s' else None
      | EmptyString => None
      end
  end.

(** One value at the head of [s] (no white space is skipped before
    it), and what follows it; [depth] is how many arrays and objects may
    still be opened.  [scan_elements] reads an array after its bracket or
    a comma, [scan_members] an object likewise; both carry what they have
    read so far. *)
Fixpoint scan_once (fuel depth : nat) (s : string) : result (value * string) :=
  match fuel with
  | O => Raise JSONDecodeError
  | S fuel' =>
      match s with
      | EmptyString => Raise JSONDecodeError
      | String c r =>
          let n := N_of_ascii c in
          if (n =? 34)%N then
            match scanstring (String.length r) r with
            | Some (t, rest) => Ok (VStr t, rest)
            | None => Raise JSONDecodeError
            end
          else if (n =? 123)%N then
            match depth with
            | O => Raise RecursionError
            | S depth' =>
                match skip_ws r with
                | String "}" rest => Ok (VDict [], rest)
                | r' => scan_members fuel' depth' [] r'
                end
            end
          else if (n =? 91)%N then
            match depth with
            | O => Raise RecursionError
            | S depth' =>
                match skip_ws r with
                | String "]" rest => Ok (VList [], rest)
                | r' => scan_elements fuel' depth' [] r'
                end
            end
          else
            match strip_prefix "null" s with
            | Some rest => Ok (VNone, rest)
            | None =>
            match strip_prefix "true" s with
            | Some rest => Ok (VBool true, rest)
            | None =>
            match strip_prefix "false" s with
            | Some rest => Ok (VBool false, rest)
            | None =>
            match strip_prefix "NaN" s with
            | Some rest => Ok (VNaN, rest)
            | None =>
            match strip_prefix "Infinity" s with
            | Some rest => Ok (VInf false, rest)
            | None =>
            match strip_prefix "-Infinity" s with
            | Some rest => Ok (VInf true, rest)
            | None => scan_number s
            end end end end end end
      end
  end
with scan_elements (fuel depth : nat) (acc : list value) (s : string)
  : result (value * string) :=
  match fuel with
  | O => Raise JSONDecodeError
  | S fuel' =>
      match scan_once fuel' depth s with
      | Raise e => Raise e
      | Ok (v, r) =>
          match skip_ws r with
          | String "]" rest => Ok (VList (acc ++ [v]), rest)
          | String "," rest =>
              scan_elements fuel' depth (acc ++ [v]) (skip_ws rest)
          | _ => Raise JSONDecodeError
          end
      end
  end
with scan_members (fuel depth : nat) (acc : list (string * value)) (s : string)
  : result (value * string) :=
  match fuel with
  | O => Raise JSONDecodeError
  | S fuel' =>
      match s with
      | String "034" r =>
          match scanstring (String.length r) r with
          | None => Raise JSONDecodeError
          | Some (k, r1) =>
              match skip_ws r1 with
              | String ":" r2 =>
                  match scan_once fuel' depth (skip_ws r2) with
                  | Raise e => Raise e
                  | Ok (v, r3) =>
                      match skip_ws r3 with
                      | String "}" rest =>
                          Ok (VDict (Py.dict_set acc k v), rest)
                      | String "," rest =>
                          scan_members fuel' depth (Py.dict_set acc k v)
                                       (skip_ws rest)
                      | _ => Raise JSONDecodeError
                      end
                  end
              | _ => Raise JSONDecodeError
              end
          end
      | _ => Raise JSONDecodeError
      end
  end.

(** [json.loads(s)]: one value, with white space allowed around it and
    nothing else.  No call nests deeper than twice the length of the
    text. *)
Definition loads (s : string) : result value :=
  match scan_once (2 * String.length s + 2) recursion_limit (skip_ws s) with
  | Ok (v, rest) =>
      if String.eqb (skip_ws rest) "" then Ok v else Raise JSONDecodeError
  | Raise e => Raise e
  end.

End json.

(** The quote character, and a text written with an apostrophe wherever
    it has a quote: [quoted "{'a': 1}"] is the JSON text of a one-item
    object. *)
Definition quote : ascii := "034".

Fixpoint quoted (s : string) : string :=
  match s with
  | EmptyString => EmptyString
  | String c s' => String (if Ascii.eqb c "'" then quote else c) (quoted s')
  end.

(** ** The conversation model *)

(** A Python [dict] with [str] keys, as the list of its items. *)
Abbreviation dict := (list (string * value)).

(** [MultiGenieModel], with the field [actor_input] it inherits from
    [GenieModel].  [answer] and [follow_up] are declared [str] but are
    assigned whatever the decoded answer holds, so they are values. *)
Record MultiGenieModel : Type := {
  actor_input : string;
  original_question : string;
  bots : gmap string string;
  rephrased_questions : list dict;
  answer : value;
  follow_up : value;
  news_queries : list string;
  news : list dict;
}.

Definition set_actor_input (x : string) (m : MultiGenieModel) : MultiGenieModel :=
  {| actor_input := x; original_question := original_question m;
     bots := bots m; rephrased_questions := rephrased_questions m;
     answer := answer m; follow_up := follow_up m;
     news_queries := news_queries m; news := news m |}.

Definition set_original_question (x : string) (m : MultiGenieModel) : MultiGenieModel :=
  {| actor_input := actor_input m; original_question := x;
     bots := bots m; rephrased_questions := rephrased_questions m;
     answer := answer m; follow_up := follow_up m;
     news_queries := news_queries m; news := news m |}.

Definition set_rephrased_questions (x : list dict) (m : MultiGenieModel) : MultiGenieModel :=
  {| actor_input := actor_input m; original_question := original_question m;
     bots := bots m; rephrased_questions := x;
     answer := answer m; follow_up := follow_up m;
     news_queries := news_queries m; news := news m |}.

Definition set_answer (x : value) (m : MultiGenieModel) : MultiGenieModel :=
  {| actor_input := actor_input m; original_question := original_question m;
     bots := bots m; rephrased_questions := rephrased_questions m;
     answer := x; follow_up := follow_up m;
     news_queries := news_queries m; news := news m |}.

Definition set_follow_up (x : value) (m : MultiGenieModel) : MultiGenieModel :=
  {| actor_input := actor_input m; original_question := original_question m;
     bots := bots m; rephrased_questions := rephrased_questions m;
     answer := answer m; follow_up := x;
     news_queries := news_queries m; news := news m |}.

Definition set_news_queries (x : list string) (m : MultiGenieModel) : MultiGenieModel :=
  {| actor_input := actor_input m; original_question := original_question m;
     bots := bots m; rephrased_questions := rephrased_questions m;
     answer := answer m; follow_up := follow_up m;
     news_queries := x; news := news m |}.

Definition set_news (x : list dict) (m : MultiGenieModel) : MultiGenieModel :=
  {| actor_input := actor_input m; original_question := original_question m;
     bots := bots m; rephrased_questions := rephrased_questions m;
     answer := answer m; follow_up := follow_up m;
     news_queries := news_queries m; news := x |}.

(** The field defaults of the class. *)
Definition default_bots : gmap string string :=
  {[ "Task Dictionary" := "task_dictionary/task_bot.jinja2" ]}.

Definition new_model : MultiGenieModel :=
  {| actor_input := ""; original_question := "";
     bots := default_bots; rephrased_questions := [];
     answer := VStr ""; follow_up := VStr "";
     news_queries := []; news := [] |}.

(** ** Methods

    A method of the machine reads and writes [self.model] and returns or
    raises: it maps the model to the model it leaves and its outcome.
    What it wrote before raising stays written. *)
Definition method (A : Type) : Type :=
  MultiGenieModel -> MultiGenieModel * result A.

#[global] Instance method_ret : MRet method := fun A a m => (m, Ok a).
#[global] Instance method_bind : MBind method := fun A B f c m =>
  match c m with
  | (m', Ok a) => f a m'
  | (m', Raise e) => (m', Raise e)
  end.

(** Read [self.model]. *)
Definition self_model : method MultiGenieModel := fun m => (m, Ok m).

(** Assign a field of [self.model]. *)
Definition assign (f : MultiGenieModel -> MultiGenieModel) : method unit :=
  fun m => (f m, Ok tt).

(** Evaluate an expression that may raise. *)
Definition eval {A : Type} (r : result A) : method A := fun m => (m, r).

(** *** Capture functions *)

Definition capture_original_question : method unit :=
  self ← self_model;
  assign (set_original_question (actor_input self)).

Definition capture_answer : method unit :=
  self ← self_model;
  match json.loads (actor_input self) with
  | Raise JSONDecodeError => mret tt
  | Raise e => eval (Raise e)
  | Ok answer_dict =>
      a ← eval (Py.getitem answer_dict "answer");
      assign (set_answer a);;
      f ← eval (Py.getitem answer_dict "follow_up");
      assign (set_follow_up f)
  end.

Definition capture_news_queries : method unit :=
  self ← self_model;
  let queries :=
    List.map (Py.remove quote) (Py.split "010" (actor_input self)) in
  assign (set_news_queries queries).

(** The keys kept of a search result. *)
Definition news_keys : list string :=
  ["title"; "url"; "content"; "publishedDate"].

(** [{k: n["results"][0][k] for k in keys if k in n["results"][0]}]. *)
Fixpoint first_result (n : value) (keys : list string) : result dict :=
  match keys with
  | [] => Ok []
  | k :: keys' =>
      results ← Py.getitem n "results";
      first ← Py.getitem0 results;
      present ← Py.contains k first;
      if present : bool then
        results ← Py.getitem n "results";
        first ← Py.getitem0 results;
        v ← Py.getitem first k;
        d ← first_result n keys';
        Ok ((k, v) :: d)
      else first_result n keys'
  end.

(** [[first_result(n) for n in news_results if len(n["results"]) > 0]]. *)
Fixpoint news_items (news_results : list value) : result (list dict) :=
  match news_results with
  | [] => Ok []
  | n :: rest =>
      results ← Py.getitem n "results";
      size ← Py.len results;
      if (0 <? size)%nat then
        d ← first_result n news_keys;
        ds ← news_items rest;
        Ok (d :: ds)
      else news_items rest
  end.

Definition capture_news : method unit :=
  self ← self_model;
  match json.loads (actor_input self) with
  | Raise JSONDecodeError => mret tt
  | Raise e => eval (Raise e)
  | Ok news_results =>
      ns ← eval (Py.iter news_results);
      news ← eval (news_items ns);
      assign (set_news news)
  end.

(** The template stored for a bot that [bots] does not know. *)
Definition unknown_bot : string := "bots/unknown_bot.jinja2".

(** The list comprehension of [on_exit_ai_decides_path] over
    [paths.items()]. *)
Fixpoint rephrasings (bots : gmap string string) (paths : dict)
  : result (list dict) :=
  match paths with
  | [] => Ok []
  | (bot_name, bot_value) :: rest =>
      keep ←
        (if bool_decide (is_Some (bots !! bot_name)) then
           if Py.truthy bot_value then
             q ← Py.getitem bot_value "question"; Ok (Py.truthy q)
           else Ok false
         else Ok false);
      if keep : bool then
        q ← Py.getitem bot_value "question";
        r ← Py.getitem bot_value "reason";
        ds ← rephrasings bots rest;
        Ok ([("name", VStr bot_name);
             ("template", VStr (default unknown_bot (bots !! bot_name)));
             ("question", q);
             ("reason", r)] :: ds)
      else rephrasings bots rest
  end.

Definition on_exit_ai_decides_path : method unit :=
  self ← self_model;
  paths ←
    match json.loads (actor_input self) with
    | Ok paths => mret paths
    | Raise JSONDecodeError => mret (VDict [])
    | Raise e => eval (Raise e)
    end;
  items ← eval (Py.items paths);
  qs ← eval (rephrasings (bots self) items);
  assign (set_rephrased_questions qs).

(** *** The guard *)

(** The loop of [bots_found] over [response.items()]. *)
Fixpoint any_bot (bots : gmap string string) (response : dict) : result bool :=
  match response with
  | [] => Ok false
  | (bot_name, bot_value) :: rest =>
      found ←
        (if bool_decide (is_Some (bots !! bot_name)) then
           if Py.truthy bot_value then
             q ← Py.getitem bot_value "question"; Ok (Py.truthy q)
           else Ok false
         else Ok false);
      if found : bool then Ok true else any_bot bots rest
  end.

(** [bots_found], on the first argument of the event.  It writes
    nothing to the model; what it prints is left out. *)
Definition bots_found (self : MultiGenieModel) (arg : string) : result bool :=
  match json.loads arg with
  | Raise _ => Ok false
  | Ok response =>
      items ← Py.items response;
      any_bot (bots self) items
  end.

(** ** The state machine *)

Inductive State : Set :=
| intro
| ai_decides_path
| user_views_rephrasing
| user_views_no_bots_found
| ai_creates_answer
| ai_creates_news_queries
| searching_news
| user_views_answer.

#[global] Instance State_eq_dec : EqDecision State.
Proof. solve_decision. Defined.

(** The [value] each state is declared with. *)
Definition state_value (s : State) : Z :=
  match s with
  | intro => 0
  | ai_decides_path => 100
  | user_views_rephrasing => 110
  | user_views_no_bots_found => 120
  | ai_creates_answer => 200
  | ai_creates_news_queries => 210
  | searching_news => 220
  | user_views_answer => 230
  end.

(** The action run on leaving a state: the [exit] the state is declared
    with, or the method named [on_exit_] and the state. *)
Definition exit_action (s : State) : option (method unit) :=
  match s with
  | intro => Some capture_original_question
  | ai_decides_path => Some on_exit_ai_decides_path
  | user_views_rephrasing => None
  | user_views_no_bots_found => Some capture_original_question
  | ai_creates_answer => Some capture_answer
  | ai_creates_news_queries => Some capture_news_queries
  | searching_news => Some capture_news
  | user_views_answer => Some capture_original_question
  end.

Inductive Event : Set :=
| user_input
| processing_done
| advance.

(** The guards a transition can name. *)
Inductive Guard : Set :=
| guard_bots_found.

(** A transition [source.to(target, cond=..., unless=...)]. *)
Record Transition : Set := {
  source : State;
  target : State;
  cond : option Guard;
  unless : option Guard;
}.

Definition to (s t : State) : Transition :=
  {| source := s; target := t; cond := None; unless := None |}.

Definition to_cond (s t : State) (g : Guard) : Transition :=
  {| source := s; target := t; cond := Some g; unless := None |}.

Definition to_unless (s t : State) (g : Guard) : Transition :=
  {| source := s; target := t; cond := None; unless := Some g |}.

(** The transitions of each event, in the order they are declared. *)
Definition transitions (ev : Event) : list Transition :=
  match ev with
  | user_input =>
      [ to intro ai_decides_path;
        to user_views_answer ai_decides_path;
        to user_views_no_bots_found ai_decides_path ]
  | processing_done =>
      [ to_cond ai_decides_path user_views_rephrasing guard_bots_found;
        to_unless ai_decides_path user_views_no_bots_found guard_bots_found;
        to ai_creates_answer ai_creates_news_queries;
        to ai_creates_news_queries searching_news;
        to searching_news user_views_answer ]
  | advance =>
      [ to user_views_rephrasing ai_creates_answer ]
  end.

(** The transitions of [ev] that leave [s]. *)
Definition candidates (ev : Event) (s : State) : list Transition :=
  List.filter (fun t => bool_decide (source t = s)) (transitions ev).

Definition call_guard (g : Guard) (self : MultiGenieModel) (arg : string)
  : result bool :=
  match g with
  | guard_bots_found => bots_found self arg
  end.

(** Whether a transition may be taken: its [cond] guard holds and its
    [unless] guard does not. *)
Definition allowed (t : Transition) (self : MultiGenieModel) (arg : string)
  : result bool :=
  c ← match cond t with
      | Some g => call_guard g self arg
      | None => Ok true
      end;
  if c : bool then
    match unless t with
    | Some g => u ← call_guard g self arg; Ok (negb u)
    | None => Ok true
    end
  else Ok false.

(** The machine: its current state and its model. *)
Record Machine : Type := {
  current_state : State;
  model : MultiGenieModel;
}.

(** Modelled from the spec: the base class [GenieStateMachine] is not
    part of the source.  A capture function reads the raw input of the
    trigger that makes the machine leave the state, so the payload of
    the trigger is stored in [actor_input] when a transition is taken,
    before the exit action of the state runs. *)
Definition receive (payload : string) (m : MultiGenieModel) : MultiGenieModel :=
  set_actor_input payload m.

(** Take the transition [t]: run the exit action of the state that is
    left, then enter the target.  When the action raises the state is
    kept; the model is as the action left it. *)
Definition activate (t : Transition) (payload : string) (sm : Machine)
  : Machine * result unit :=
  let m := receive payload (model sm) in
  match exit_action (source t) with
  | None => ({| current_state := target t; model := m |}, Ok tt)
  | Some action =>
      match action m with
      | (m', Ok _) => ({| current_state := target t; model := m' |}, Ok tt)
      | (m', Raise e) =>
          ({| current_state := current_state sm; model := m' |}, Raise e)
      end
  end.

(** Try the candidates in order and take the first that is allowed;
    with none the event is refused. *)
Fixpoint first_allowed (ts : list Transition) (payload : string) (sm : Machine)
  : Machine * result unit :=
  match ts with
  | [] => (sm, Raise InvalidTransition)
  | t :: ts' =>
      match allowed t (model sm) payload with
      | Raise e => (sm, Raise e)
      | Ok true => activate t payload sm
      | Ok false => first_allowed ts' payload sm
      end
  end.

(** Fire the event [ev] with [payload] on the machine. *)
Definition send (ev : Event) (payload : string) (sm : Machine)
  : Machine * result unit :=
  first_allowed (candidates ev (current_state sm)) payload sm.

(** A new conversation. *)
Definition new_machine : Machine :=
  {| current_state := intro; model := new_model |}.

(** A run of events, stopping at the first that raises. *)
Fixpoint run (evs : list (Event * string)) (sm : Machine) : Machine * result unit :=
  match evs with
  | [] => (sm, Ok tt)
  | (ev, payload) :: evs' =>
      match send ev payload sm with
      | (sm', Ok _) => run evs' sm'
      | (sm', Raise e) => (sm', Raise e)
      end
  end.

(** * Properties *)

(** ** The acceptance test of a bot entry *)

(** The test both [bots_found] and [on_exit_ai_decides_path] apply to an
    item of the routing mapping:
    [bot_name in bots.keys() and bot_value and bot_value["question"]]. *)
Definition entry_test (bots : gmap string string) (bot_name : string)
  (bot_value : value) : result bool :=
  if bool_decide (is_Some (bots !! bot_name)) then
    if Py.truthy bot_value then
      q ← Py.getitem bot_value "question"; Ok (Py.truthy q)
    else Ok false
  else Ok false.

(** An entry is accepted when its name is a known bot and its value
    carries a non-empty question. *)
Definition accepted (bots : gmap string string) (kv : string * value) : Prop :=
  is_Some (bots !! kv.1) /\ Py.truthy kv.2 = true /\
  exists q, Py.getitem kv.2 "question" = Ok q /\ Py.truthy q = true.

(** It is rejected when its name is unknown, its value is empty, or its
    question is empty. *)
Definition rejected (bots : gmap string string) (kv : string * value) : Prop :=
  bots !! kv.1 = None \/ Py.truthy kv.2 = false \/
  exists q, Py.getitem kv.2 "question" = Ok q /\ Py.truthy q = false.


(** The entry [on_exit_ai_decides_path] builds for a bot. *)
Definition rephrasing (bots : gmap string string) (bot_name : string)
  (q r : value) : dict :=
  [("name", VStr bot_name);
   ("template", VStr (default unknown_bot (bots !! bot_name)));
   ("question", q);
   ("reason", r)].

Lemma result_bind_ok {A B : Type} (f : A -> result B) (a : A) :
  (Ok a ≫= f) = f a.
Proof. reflexivity. Qed.


Lemma any_bot_cons bots k v d :
  any_bot bots ((k, v) :: d) =
    (found ← entry_test bots k v; if found : bool then Ok true else any_bot bots d).
Proof. reflexivity. Qed.

Lemma rephrasings_cons bots k v d :
  rephrasings bots ((k, v) :: d) =
    (keep ← entry_test bots k v;
     if keep : bool then
       q ← Py.getitem v "question";
       r ← Py.getitem v "reason";
       ds ← rephrasings bots d;
       Ok (rephrasing bots k q r :: ds)
     else rephrasings bots d).
Proof. reflexivity. Qed.

Lemma entry_test_true bots k v :
  entry_test bots k v = Ok true <-> accepted bots (k, v).
Proof.
  unfold entry_test, accepted; simpl. split.
  - case_bool_decide as Hk; [|discriminate].
    destruct (Py.truthy v) eqn:Hv; [|discriminate].
    destruct (Py.getitem v "question") as [q|e] eqn:Hq; [|discriminate].
    rewrite result_bind_ok. intros [= Ht]. eauto 6.
  - intros (Hk & Hv & q & Hq & Ht).
    rewrite bool_decide_eq_true_2, Hv, Hq by done. by rewrite result_bind_ok, Ht.
Qed.

Lemma entry_test_false bots k v :
  entry_test bots k v = Ok false <-> rejected bots (k, v).
Proof.
  unfold entry_test, rejected; simpl. split.
  - case_bool_decide as Hk.
    + destruct (Py.truthy v) eqn:Hv; [|auto].
      destruct (Py.getitem v "question") as [q|e] eqn:Hq; [|discriminate].
      rewrite result_bind_ok. intros [= Ht]. eauto 6.
    + intros _. left. by apply eq_None_not_Some.
  - intros [Hk | [Hv | (q & Hq & Ht)]].
    + rewrite bool_decide_eq_false_2; [done|]. by rewrite Hk; intros [? ?].
    + case_bool_decide; [|done]. by rewrite Hv.
    + case_bool_decide; [|done]. destruct (Py.truthy v); [|done].
      by rewrite Hq, result_bind_ok, Ht.
Qed.



(** ** The guard's loop and the exit action's comprehension *)

Lemma any_bot_false bots d :
  any_bot bots d = Ok false <-> Forall (rejected bots) d.
Proof.
  induction d as [|[k v] d IH].
  - split; [constructor | reflexivity].
  - rewrite any_bot_cons, Forall_cons, <- IH, <- entry_test_false.
    destruct (entry_test bots k v) as [[]|e]; simpl; split;
      try discriminate; intuition congruence.
Qed.

Lemma any_bot_true bots d :
  any_bot bots d = Ok true <->
  exists d1 kv d2,
    d = (d1 ++ kv :: d2)%list /\ Forall (rejected bots) d1 /\ accepted bots kv.
Proof.
  induction d as [|[k v] d IH].
  - split; [discriminate|]. intros (d1 & kv & d2 & Hd & _). by destruct d1.
  - rewrite any_bot_cons. split.
    + destruct (entry_test bots k v) as [[]|e] eqn:Ht; simpl; try discriminate.
      * intros _. exists [], (k, v), d. by rewrite <- entry_test_true.
      * intros (d1 & kv & d2 & -> & H1 & Hkv)%IH.
        exists ((k, v) :: d1), kv, d2. split_and!; [done| |done].
        constructor; [by apply entry_test_false | done].
    + intros (d1 & kv & d2 & Hd & H1 & Hkv). destruct d1 as [|kv1 d1].
      * injection Hd as <- ->. apply entry_test_true in Hkv. by rewrite Hkv.
      * injection Hd as <- ->. apply Forall_cons in H1 as [H0 H1].
        apply entry_test_false in H0. rewrite H0. simpl.
        apply IH. eauto 6.
Qed.




Lemma rephrasings_rejected bots d :
  Forall (rejected bots) d -> rephrasings bots d = Ok [].
Proof.
  induction 1 as [|[k v] d Hkv _ IH]; [done|].
  apply entry_test_false in Hkv. by rewrite rephrasings_cons, Hkv.
Qed.

(** Whether the guard accepts an entry: what its loop answers on the
    mapping that holds this entry alone. *)
Definition guard_accepts (bots : gmap string string) (kv : string * value) : bool :=
  match any_bot bots [kv] with
  | Ok true => true
  | _ => false
  end.



Lemma guard_accepts_test bots k v :
  guard_accepts bots (k, v) = true <-> entry_test bots k v = Ok true.
Proof.
  unfold guard_accepts. rewrite any_bot_cons.
  destruct (entry_test bots k v) as [[]|e]; simpl; split; congruence.
Qed.

(** The entry the exit action makes of an item it keeps. *)
Definition rephrased_as (bots : gmap string string) (kv : string * value)
  (entry : dict) : Prop :=
  exists q r,
    Py.getitem kv.2 "question" = Ok q /\ Py.getitem kv.2 "reason" = Ok r /\
    entry = rephrasing bots kv.1 q r.

Lemma rephrasings_ok bots d qs :
  rephrasings bots d = Ok qs ->
  Forall2 (rephrased_as bots) (List.filter (guard_accepts bots) d) qs.
Proof.
  revert qs. induction d as [|[k v] d IH]; intros qs.
  - intros [= <-]. constructor.
  - rewrite rephrasings_cons. simpl List.filter.
    destruct (entry_test bots k v) as [[]|e] eqn:Ht; simpl; try discriminate.
    + apply guard_accepts_test in Ht as ->.
      destruct (Py.getitem v "question") as [q|] eqn:Hq; [|discriminate].
      destruct (Py.getitem v "reason") as [r|] eqn:Hr; [|discriminate].
      destruct (rephrasings bots d) as [ds|]; [|discriminate].
      rewrite !result_bind_ok. intros [= <-].
      constructor; [|by apply IH]. by exists q, r.
    + replace (guard_accepts bots (k, v)) with false; [by apply IH|].
      symmetry. apply not_true_is_false. rewrite guard_accepts_test. congruence.
Qed.

(** ** The exit action of [ai_decides_path] *)

(** The mapping the exit action goes through for an input: the decoded
    mapping, or the empty one for a text that is not JSON. *)
Definition paths_of (input : string) (d : dict) : Prop :=
  json.loads input = Ok (VDict d) \/
  (json.loads input = Raise JSONDecodeError /\ d = []).

Lemma on_exit_ai_decides_path_paths self d :
  paths_of (actor_input self) d ->
  on_exit_ai_decides_path self =
    match rephrasings (bots self) d with
    | Ok qs => (set_rephrased_questions qs self, Ok tt)
    | Raise e => (self, Raise e)
    end.
Proof.
  unfold on_exit_ai_decides_path, mbind, method_bind, self_model, eval, assign.
  intros [H | [H ->]]; rewrite H; simpl; [|done].
  by destruct (rephrasings (bots self) d).
Qed.

Lemma on_exit_ai_decides_path_ok self m' :
  on_exit_ai_decides_path self = (m', Ok tt) ->
  exists d qs,
    paths_of (actor_input self) d /\ rephrasings (bots self) d = Ok qs /\
    m' = set_rephrased_questions qs self.
Proof.
  unfold paths_of.
  destruct (json.loads (actor_input self)) as [v|e] eqn:Hl.
  - destruct v;
      try (unfold on_exit_ai_decides_path, mbind, method_bind, self_model, eval;
           rewrite Hl; simpl; discriminate).
    rewrite (on_exit_ai_decides_path_paths self d) by (by left).
    destruct (rephrasings (bots self) d) as [qs|] eqn:Hr; [|discriminate].
    intros [= <-]. exists d, qs. auto.
  - destruct e;
      try (unfold on_exit_ai_decides_path, mbind, method_bind, self_model, eval;
           rewrite Hl; simpl; discriminate).
    rewrite (on_exit_ai_decides_path_paths self []) by (by right).
    simpl. intros [= <-]. exists [], []. auto.
Qed.

Lemma bots_found_mapping self arg d :
  json.loads arg = Ok (VDict d) -> bots_found self arg = any_bot (bots self) d.
Proof. unfold bots_found. by intros ->. Qed.

(** The two transitions that leave [ai_decides_path]. *)
Definition to_rephrasing : Transition :=
  to_cond ai_decides_path user_views_rephrasing guard_bots_found.

Definition to_no_bots_found : Transition :=
  to_unless ai_decides_path user_views_no_bots_found guard_bots_found.

Lemma allowed_to_rephrasing self arg :
  allowed to_rephrasing self arg = bots_found self arg.
Proof.
  unfold allowed; simpl. by destruct (bots_found self arg) as [[]|].
Qed.

Lemma allowed_to_no_bots_found self arg :
  allowed to_no_bots_found self arg = negb <$> bots_found self arg.
Proof. reflexivity. Qed.

Lemma candidates_ai_decides_path :
  candidates processing_done ai_decides_path = [to_rephrasing; to_no_bots_found].
Proof. reflexivity. Qed.

Lemma send_from_ai_decides_path self payload b :
  bots_found self payload = Ok b ->
  let sm := {| current_state := ai_decides_path; model := self |} in
  send processing_done payload sm =
    activate (if b then to_rephrasing else to_no_bots_found) payload sm.
Proof.
  intros Hb sm. unfold send. simpl current_state.
  rewrite candidates_ai_decides_path. simpl first_allowed.
  rewrite allowed_to_rephrasing, allowed_to_no_bots_found. simpl model.
  rewrite Hb. by destruct b.
Qed.

(** A first round of a conversation, up to the next question. *)
Definition first_round : list (Event * string) :=
  [ (user_input, "What is X?");
    (processing_done,
      quoted "{'Task Dictionary':{'question':'q1','reason':'r1'}}");
    (advance, "");
    (processing_done, quoted "{'answer':'a1','follow_up':'f1'}");
    (processing_done, quoted "'X' news");
    (processing_done,
      quoted "[{'results':[{'title':'t','url':'u'}]},{'results':[]}]");
    (user_input, "And what is Y?") ].

(** ** C1: a payload with no bot route *)





(** ** C4: what the guard returns *)




(** ** C5: the two routes out of [ai_decides_path] *)

(** C5 (as corrected): for every model and every payload on which the
    guard [bots_found] returns a boolean, exactly one of the two
    transitions declared for [processing_done] out of [ai_decides_path] is
    allowed (to [user_views_rephrasing] when the guard says true, to
    [user_views_no_bots_found] when it says false) and it is the one the
    machine takes. *)
Theorem exactly_one_route_when_guard_returns
  (self : MultiGenieModel) (payload : string) (b : bool) :
  bots_found self payload = Ok b ->
  let sm := {| current_state := ai_decides_path; model := self |} in
  candidates processing_done ai_decides_path = [to_rephrasing; to_no_bots_found] /\
  allowed to_rephrasing self payload = Ok b /\
  allowed to_no_bots_found self payload = Ok (negb b) /\
  send processing_done payload sm =
    activate (if b then to_rephrasing else to_no_bots_found) payload sm.
Proof.
  intros Hb sm. split_and!.
  - reflexivity.
  - by rewrite allowed_to_rephrasing.
  - by rewrite allowed_to_no_bots_found, Hb.
  - by apply send_from_ai_decides_path.
Qed.

Lemma exactly_one_route_when_guard_returns_witness :
  let payload := quoted "{'Task Dictionary':{'question':'q1','reason':'r1'}}" in
  let sm := {| current_state := ai_decides_path; model := new_model |} in
  candidates processing_done ai_decides_path = [to_rephrasing; to_no_bots_found] /\
  allowed to_rephrasing new_model payload = Ok true /\
  allowed to_no_bots_found new_model payload = Ok (negb true) /\
  send processing_done payload sm = activate to_rephrasing payload sm.
Proof.
  intros payload sm.
  apply (exactly_one_route_when_guard_returns new_model payload true).
  vm_compute. reflexivity.
Defined.

(** C5 as stated fails: on a payload that decodes to a list the guard
    raises, neither transition is allowed, and the machine stays in
    [ai_decides_path] with the error. *)
Lemma exactly_one_route_counterexample :
  let sm := {| current_state := ai_decides_path; model := new_model |} in
  json.loads "[]" = Ok (VList []) /\
  allowed to_rephrasing new_model "[]" = Raise AttributeError /\
  allowed to_no_bots_found new_model "[]" = Raise AttributeError /\
  send processing_done "[]" sm = (sm, Raise AttributeError).
Proof. vm_compute. split_and!; reflexivity. Qed.

(** ** C3: the guard and the filter *)







(** ** C10: the template of a stored entry *)

(** The entry names a bot of [bots] and carries that bot's template. *)
Definition template_of_bot (bots : gmap string string) (entry : dict) : Prop :=
  exists bot_name t,
    Py.dict_get entry "name" = Some (VStr bot_name) /\
    bots !! bot_name = Some t /\
    Py.dict_get entry "template" = Some (VStr t).

Lemma rephrasings_templates bots d qs :
  rephrasings bots d = Ok qs -> Forall (template_of_bot bots) qs.
Proof.
  revert qs. induction d as [|[k v] d IH]; intros qs.
  - intros [= <-]. constructor.
  - rewrite rephrasings_cons.
    destruct (entry_test bots k v) as [[]|e] eqn:Ht; simpl; try discriminate.
    + apply entry_test_true in Ht as ([t Hk] & _).
      destruct (Py.getitem v "question") as [q|]; [|discriminate].
      destruct (Py.getitem v "reason") as [r|]; [|discriminate].
      destruct (rephrasings bots d) as [ds|]; [|discriminate].
      rewrite !result_bind_ok. intros [= <-]. constructor; [|by apply IH].
      exists k, t. simpl in Hk. split_and!; [done..|].
      unfold rephrasing. by rewrite Hk.
    + apply IH.
Qed.

(** C10: every entry that [on_exit_ai_decides_path] stores in
    [rephrased_questions] names a bot present in [bots] and its template
    is [bots[name]]: the lookup never falls back to its default, the
    template of the unknown bot. *)
Theorem stored_template_is_the_bots_template (self m' : MultiGenieModel) :
  on_exit_ai_decides_path self = (m', Ok tt) ->
  bots m' = bots self /\
  Forall (template_of_bot (bots self)) (rephrased_questions m').
Proof.
  intros (d & qs & _ & Hr & ->)%on_exit_ai_decides_path_ok.
  split; [reflexivity|]. by apply rephrasings_templates in Hr.
Qed.

Lemma stored_template_is_the_bots_template_witness :
  let payload :=
    quoted "{'Task Dictionary':{'question':'q1','reason':'r1'},'Other':{'question':'q2','reason':'r2'}}" in
  let entry := rephrasing default_bots "Task Dictionary" (VStr "q1") (VStr "r1") in
  bots (set_rephrased_questions [entry] (receive payload new_model)) = default_bots /\
  Forall (template_of_bot default_bots) [entry].
Proof.
  intros payload entry.
  apply (stored_template_is_the_bots_template (receive payload new_model)
           (set_rephrased_questions [entry] (receive payload new_model))).
  vm_compute. reflexivity.
Defined.

(** ** C2: the answer and the follow-up *)

(** C2 (as corrected): [capture_answer] leaves [answer] and [follow_up]
    (and the rest of the model) as they were when the input is not JSON;
    it overwrites both, with the values under the keys [answer] and
    [follow_up], when the input decodes to a mapping that holds both keys;
    and it raises without writing either field when the input decodes to a
    value that is not a mapping or to a mapping without the key [answer]. *)
Theorem capture_answer_all_or_nothing (self : MultiGenieModel) :
  (json.loads (actor_input self) = Raise JSONDecodeError ->
   capture_answer self = (self, Ok tt)) /\
  (forall d a f,
      json.loads (actor_input self) = Ok (VDict d) ->
      Py.dict_get d "answer" = Some a -> Py.dict_get d "follow_up" = Some f ->
      capture_answer self = (set_follow_up f (set_answer a self), Ok tt)) /\
  (forall v e,
      json.loads (actor_input self) = Ok v ->
      Py.getitem v "answer" = Raise e ->
      capture_answer self = (self, Raise e)).
Proof.
  unfold capture_answer, mbind, method_bind, self_model, eval, assign.
  split_and!.
  - by intros ->.
  - intros d a f -> Ha Hf. simpl. by rewrite Ha, Hf.
  - intros v e -> He. by rewrite He.
Qed.

Lemma capture_answer_all_or_nothing_witness :
  let structured := set_actor_input (quoted "{'answer':'a1','follow_up':'f1'}") new_model in
  let text := set_actor_input "not-json" new_model in
  let list := set_actor_input "[1]" new_model in
  capture_answer text = (text, Ok tt) /\
  capture_answer structured =
    (set_follow_up (VStr "f1") (set_answer (VStr "a1") structured), Ok tt) /\
  capture_answer list = (list, Raise TypeError).
Proof.
  intros structured text list. split_and!.
  - apply (proj1 (capture_answer_all_or_nothing text)). reflexivity.
  - apply (proj1 (proj2 (capture_answer_all_or_nothing structured))
             [("answer", VStr "a1"); ("follow_up", VStr "f1")]);
      vm_compute; reflexivity.
  - apply (proj2 (proj2 (capture_answer_all_or_nothing list)) (VList [VInt 1]));
      vm_compute; reflexivity.
Defined.

(** C2 as stated fails: on a mapping that holds [answer] and no
    [follow_up], [answer] is overwritten, then the lookup of [follow_up]
    raises and [follow_up] keeps its value. *)
Lemma capture_answer_partial_write_counterexample :
  let self := set_actor_input (quoted "{'answer':'a'}") new_model in
  json.loads (actor_input self) = Ok (VDict [("answer", VStr "a")]) /\
  capture_answer self = (set_answer (VStr "a") self, Raise KeyError) /\
  answer (capture_answer self).1 = VStr "a" /\
  answer self = VStr "" /\
  follow_up (capture_answer self).1 = follow_up self.
Proof. vm_compute. split_and!; reflexivity. Qed.

(** ** C6: an event with no transition *)

(** C6: for every state and every event that has no transition declared
    out of that state, firing the event fails with [InvalidTransition] and
    leaves the current state and the model as they were. *)
Theorem undeclared_event_is_refused
  (s : State) (ev : Event) (payload : string) (self : MultiGenieModel) :
  candidates ev s = [] ->
  send ev payload {| current_state := s; model := self |} =
    ({| current_state := s; model := self |}, Raise InvalidTransition).
Proof. unfold send; simpl. by intros ->. Qed.

Lemma undeclared_event_is_refused_witness :
  send advance "go" new_machine = (new_machine, Raise InvalidTransition) /\
  send user_input "What is X?"
       {| current_state := ai_decides_path; model := new_model |} =
    ({| current_state := ai_decides_path; model := new_model |},
     Raise InvalidTransition).
Proof.
  split.
  - apply (undeclared_event_is_refused intro advance "go" new_model). reflexivity.
  - apply (undeclared_event_is_refused ai_decides_path user_input). reflexivity.
Defined.

(** ** C9: a question from the user *)

(** C9: for every payload, firing [user_input] from [intro],
    [user_views_answer] or [user_views_no_bots_found] moves the machine to
    [ai_decides_path], and the exit action of the state that is left has
    run: [original_question] is the payload (nothing else of the model
    changes but [actor_input]). *)
Theorem user_input_captures_the_question
  (s : State) (payload : string) (self : MultiGenieModel) :
  s = intro \/ s = user_views_answer \/ s = user_views_no_bots_found ->
  send user_input payload {| current_state := s; model := self |} =
    ({| current_state := ai_decides_path;
        model := set_original_question payload (receive payload self) |}, Ok tt)
  /\ original_question
       (model (send user_input payload {| current_state := s; model := self |}).1)
     = payload.
Proof. by intros [-> | [-> | ->]]. Qed.

Lemma user_input_captures_the_question_witness :
  send user_input "What is X?" new_machine =
    ({| current_state := ai_decides_path;
        model := set_original_question "What is X?" (receive "What is X?" new_model) |},
     Ok tt)
  /\ original_question (model (send user_input "What is X?" new_machine).1)
     = "What is X?".
Proof.
  apply (user_input_captures_the_question intro "What is X?" new_model).
  by left.
Defined.

(** ** C7: the news kept from a search *)

(** A search-source entry: a mapping whose [results] is the list of the
    results found, each a mapping. *)
Definition source_entry (n : value) (results : list dict) : Prop :=
  Py.getitem n "results" = Ok (VList (List.map VDict results)).

(** A result restricted to the allow-listed keys it has. *)
Definition allowed_fields (result : dict) : dict :=
  omap (fun k => pair k <$> Py.dict_get result k) news_keys.

(** The news of a search, as the design document words them: the first
    result of every source that has one, restricted to the allow-listed
    keys; a source without a result gives nothing. *)
Definition first_results (sources : list (list dict)) : list dict :=
  omap (fun results => allowed_fields <$> head results) sources.

Lemma first_result_of_mapping n r rs keys :
  Py.getitem n "results" = Ok (VList (VDict r :: rs)) ->
  first_result n keys = Ok (omap (fun k => pair k <$> Py.dict_get r k) keys).
Proof.
  intros Hn. induction keys as [|k keys IH]; [done|].
  simpl first_result. rewrite Hn, !result_bind_ok. simpl Py.getitem0.
  rewrite result_bind_ok. simpl Py.contains. rewrite result_bind_ok.
  simpl omap.
  destruct (Py.dict_get r k) as [v|] eqn:Hk.
  - rewrite bool_decide_eq_true_2 by eauto.
    rewrite !result_bind_ok. unfold Py.getitem. by rewrite Hk, IH.
  - rewrite bool_decide_eq_false_2 by (by intros [? ?]). apply IH.
Qed.

Lemma news_items_cons n rest :
  news_items (n :: rest) =
    (results ← Py.getitem n "results";
     size ← Py.len results;
     if (0 <? size)%nat then
       d ← first_result n news_keys;
       ds ← news_items rest;
       Ok (d :: ds)
     else news_items rest).
Proof. reflexivity. Qed.

Lemma news_items_of_sources ns sources :
  Forall2 source_entry ns sources -> news_items ns = Ok (first_results sources).
Proof.
  induction 1 as [|n results ns sources Hn _ IH]; [done|].
  rewrite news_items_cons. unfold source_entry in Hn. rewrite Hn, result_bind_ok.
  destruct results as [|r results].
  - exact IH.
  - rewrite (first_result_of_mapping n r (List.map VDict results)) by done.
    by rewrite IH.
Qed.

(** Every item of the news comes from a source that has a result. *)
Lemma first_results_backed sources item :
  item ∈ first_results sources ->
  exists results r,
    results ∈ sources /\ head results = Some r /\ item = allowed_fields r.
Proof.
  unfold first_results. rewrite list_elem_of_omap.
  intros (results & Hin & Hitem). exists results.
  destruct (head results) as [r|]; [|done].
  injection Hitem as <-. eauto.
Qed.

(** C7: for every actor input that decodes to a list of search-source
    entries, [capture_news] sets [news] to the first result of each entry
    whose list of results is not empty, restricted to the keys [title],
    [url], [content] and [publishedDate] that it has; an entry without a
    result is dropped, so every item of [news] is backed by a result.
    Fired as [processing_done] from [searching_news], this is what the
    machine stores on its way to [user_views_answer]. *)
Theorem capture_news_keeps_first_results
  (self : MultiGenieModel) (payload : string)
  (ns : list value) (sources : list (list dict)) :
  json.loads payload = Ok (VList ns) ->
  Forall2 source_entry ns sources ->
  let m := receive payload self in
  capture_news m = (set_news (first_results sources) m, Ok tt) /\
  send processing_done payload
       {| current_state := searching_news; model := self |} =
    ({| current_state := user_views_answer;
        model := set_news (first_results sources) m |}, Ok tt) /\
  (forall item, item ∈ first_results sources ->
     exists results r,
       results ∈ sources /\ head results = Some r /\ item = allowed_fields r).
Proof.
  intros Hl Hs m.
  assert (Hc : capture_news m = (set_news (first_results sources) m, Ok tt)).
  { unfold capture_news, mbind, method_bind, self_model, eval, assign.
    replace (actor_input m) with payload by reflexivity. rewrite Hl.
    simpl Py.iter. cbv beta iota.
    by rewrite (news_items_of_sources ns sources Hs). }
  split_and!; [done| |apply first_results_backed].
  change (send processing_done payload
            {| current_state := searching_news; model := self |})
    with (match capture_news m with
          | (m', Ok _) =>
              ({| current_state := user_views_answer; model := m' |}, Ok tt)
          | (m', Raise e) =>
              ({| current_state := searching_news; model := m' |}, Raise e)
          end).
  by rewrite Hc.
Qed.

Lemma capture_news_keeps_first_results_witness :
  let payload := quoted "[{'results':[{'title':'t','url':'u'}]},{'results':[]}]" in
  let m := receive payload new_model in
  let sources := [[[("title", VStr "t"); ("url", VStr "u")]]; []] in
  capture_news m = (set_news [[("title", VStr "t"); ("url", VStr "u")]] m, Ok tt) /\
  send processing_done payload
       {| current_state := searching_news; model := new_model |} =
    ({| current_state := user_views_answer;
        model := set_news [[("title", VStr "t"); ("url", VStr "u")]] m |}, Ok tt) /\
  (forall item, item ∈ first_results sources ->
     exists results r,
       results ∈ sources /\ head results = Some r /\ item = allowed_fields r).
Proof.
  intros payload m sources.
  apply (capture_news_keeps_first_results new_model payload
           [VDict [("results", VList [VDict [("title", VStr "t"); ("url", VStr "u")]])];
            VDict [("results", VList [])]]
           sources).
  - vm_compute. reflexivity.
  - repeat constructor.
Defined.

(** ** C8: the news queries *)

Definition newline : ascii := "010".

(** The character [c] occurs in [s]. *)
Definition occurs (c : ascii) (s : string) : Prop :=
  In c (list_ascii_of_string s).

(** [lines] are the lines of [text]: joined by newlines they give the
    text back, and none of them holds a newline. *)
Definition lines_of (text : string) (lines : list string) : Prop :=
  lines <> [] /\ Py.join newline lines = text /\
  Forall (fun l => ~ occurs newline l) lines.

(** [q] is [l] with its quote characters removed: the other characters,
    in their order. *)
Definition without_quotes (l q : string) : Prop :=
  list_ascii_of_string q =
    List.filter (fun c => negb (Ascii.eqb c quote)) (list_ascii_of_string l).

Lemma split_not_nil sep s : Py.split sep s <> [].
Proof.
  destruct s as [|c s]; simpl; [done|].
  destruct (Ascii.eqb c sep); [done|]. by destruct (Py.split sep s).
Qed.

Lemma join_split sep s : Py.join sep (Py.split sep s) = s.
Proof.
  induction s as [|c s IH]; [done|]. simpl Py.split.
  pose proof (split_not_nil sep s) as Hne.
  destruct (Ascii.eqb c sep) eqn:Hc.
  - apply Ascii.eqb_eq in Hc as ->.
    destruct (Py.split sep s) as [|x xs]; [done|].
    change (Py.join sep (EmptyString :: x :: xs))
      with (String sep (Py.join sep (x :: xs))).
    by rewrite IH.
  - destruct (Py.split sep s) as [|x xs]; [done|].
    rewrite <- IH. by destruct xs.
Qed.

Lemma split_no_separator sep s :
  Forall (fun l => ~ occurs sep l) (Py.split sep s).
Proof.
  induction s as [|c s IH]; simpl.
  - constructor; [|constructor]. intros [].
  - destruct (Ascii.eqb c sep) eqn:Hc.
    + constructor; [|done]. intros [].
    + apply Ascii.eqb_neq in Hc.
      destruct (Py.split sep s) as [|x xs]; simpl.
      * constructor; [|constructor]. intros [?|[]]. congruence.
      * apply Forall_cons in IH as [Hx Hxs]. constructor; [|done].
        intros [?|?]; [congruence | by apply Hx].
Qed.

Lemma remove_filter c s :
  list_ascii_of_string (Py.remove c s) =
    List.filter (fun c' => negb (Ascii.eqb c' c)) (list_ascii_of_string s).
Proof.
  induction s as [|c' s IH]; [done|]. simpl.
  destruct (Ascii.eqb c' c); simpl; by rewrite IH.
Qed.

(** C8: for every actor input, [capture_news_queries] sets [news_queries]
    to the lines of the input (the input split at its newline characters),
    each with its quote characters removed, in the same order and number;
    nothing else of the model changes. *)
Theorem capture_news_queries_strips_quotes (self : MultiGenieModel) :
  exists lines,
    lines_of (actor_input self) lines /\
    capture_news_queries self =
      (set_news_queries (List.map (Py.remove quote) lines) self, Ok tt) /\
    Forall2 without_quotes lines
            (news_queries (capture_news_queries self).1) /\
    List.length (news_queries (capture_news_queries self).1) = List.length lines /\
    Forall (fun q => ~ occurs quote q)
           (news_queries (capture_news_queries self).1).
Proof.
  exists (Py.split newline (actor_input self)). split_and!.
  - split_and!; [apply split_not_nil | apply join_split | apply split_no_separator].
  - reflexivity.
  - simpl. apply Forall2_fmap_r, Forall_Forall2_diag, Forall_forall.
    intros l _. apply remove_filter.
  - simpl. apply length_map.
  - simpl. apply Forall_fmap, Forall_forall. intros l _. unfold occurs.
    simpl. rewrite remove_filter, filter_In.
    intros [_ Hq]. by rewrite Ascii.eqb_refl in Hq.
Qed.

(** The lines of a text are determined by [lines_of]. *)
Lemma occurs_app_separator sep x y : occurs sep (x ++ String sep y).
Proof.
  unfold occurs. induction x as [|c x IH]; simpl; [by left | by right].
Qed.

Lemma app_separator_inj sep x y a b :
  ~ occurs sep x -> ~ occurs sep y ->
  x ++ String sep a = y ++ String sep b -> x = y /\ a = b.
Proof.
  revert y. induction x as [|c x IH]; intros [|c' y] Hx Hy; simpl.
  - by intros [= ->].
  - intros [= <- _]. destruct Hy. by left.
  - intros [= -> _]. destruct Hx. by left.
  - intros [= -> H]. destruct (IH y) as [-> ->]; [| |done|done].
    + intros ?. apply Hx. by right.
    + intros ?. apply Hy. by right.
Qed.

Lemma join_cons sep x y l :
  Py.join sep (x :: y :: l) = x ++ String sep (Py.join sep (y :: l)).
Proof. reflexivity. Qed.

Lemma lines_of_unique text l1 l2 : lines_of text l1 -> lines_of text l2 -> l1 = l2.
Proof.
  unfold newline. intros (H1 & <- & Hn1) (H2 & Hj & Hn2). revert l2 H2 Hj Hn2.
  induction l1 as [|x l1 IH]; [done|]. intros [|y l2] H2; [done|].
  intros Hj [Hy Hl2]%Forall_cons. apply Forall_cons in Hn1 as [Hx Hl1].
  destruct l1 as [|x' l1], l2 as [|y' l2].
  - simpl in Hj. by subst.
  - rewrite join_cons in Hj. simpl in Hj. subst x. destruct Hx.
    apply occurs_app_separator.
  - rewrite join_cons in Hj. simpl in Hj. subst y. destruct Hy.
    apply occurs_app_separator.
  - rewrite !join_cons in Hj. apply app_separator_inj in Hj as [-> Hj]; [|done..].
    f_equal. by apply IH.
Qed.

(** * Further properties of the capture functions and of the machine *)

(** ** What an exit action writes *)

(** The outcomes of [capture_answer]: nothing written, [answer] alone
    (and then it raised), or both fields. *)
Lemma capture_answer_cases self m' r :
  capture_answer self = (m', r) ->
  m' = self \/
  (exists a e, m' = set_answer a self /\ r = Raise e) \/
  (exists a f, m' = set_follow_up f (set_answer a self) /\ r = Ok tt).
Proof.
  unfold capture_answer, mbind, method_bind, self_model, eval, assign.
  destruct (json.loads (actor_input self)) as [v|e].
  - destruct (Py.getitem v "answer") as [a|e]; [|intros [= <- _]; by left].
    simpl. destruct (Py.getitem v "follow_up") as [f|e]; intros [= <- <-]; eauto 6.
  - destruct e; intros [= <- _]; by left.
Qed.

Lemma first_result_keys n keys d :
  first_result n keys = Ok d -> List.map fst d `sublist_of` keys.
Proof.
  revert d. induction keys as [|k keys IH]; intros d.
  - intros [= <-]. constructor.
  - simpl first_result.
    destruct (Py.getitem n "results") as [results|]; [|discriminate].
    rewrite !result_bind_ok.
    destruct (Py.getitem0 results) as [first|]; [|discriminate].
    rewrite !result_bind_ok.
    destruct (Py.contains k first) as [[]|]; [| |discriminate];
      rewrite !result_bind_ok.
    + destruct (Py.getitem first k) as [v|]; [|discriminate].
      rewrite result_bind_ok.
      destruct (first_result n keys) as [d'|]; [|discriminate].
      rewrite result_bind_ok. intros [= <-]. simpl. constructor. by apply IH.
    + intros H. constructor. by apply IH.
Qed.

(** An item of the news holds allow-listed keys only, each at most once
    and in the order of the allow-list. *)
Definition allow_listed (item : dict) : Prop :=
  List.map fst item `sublist_of` news_keys.

Lemma news_items_allow_listed ns items :
  news_items ns = Ok items -> Forall allow_listed items.
Proof.
  revert items. induction ns as [|n ns IH]; intros items.
  - intros [= <-]. constructor.
  - rewrite news_items_cons.
    destruct (Py.getitem n "results") as [results|]; [|discriminate].
    rewrite result_bind_ok.
    destruct (Py.len results) as [size|]; [|discriminate].
    rewrite result_bind_ok. destruct (0 <? size)%nat; [|apply IH].
    destruct (first_result n news_keys) as [d|] eqn:Hd; [|discriminate].
    rewrite result_bind_ok.
    destruct (news_items ns) as [ds|]; [|discriminate].
    rewrite result_bind_ok. intros [= <-].
    constructor; [by apply first_result_keys in Hd | by apply IH].
Qed.

(** The outcomes of [capture_news]: nothing written, or [news] replaced
    by allow-listed items on a normal return. *)
Lemma capture_news_cases self m' r :
  capture_news self = (m', r) ->
  m' = self \/
  (exists items, m' = set_news items self /\ r = Ok tt /\ Forall allow_listed items).
Proof.
  unfold capture_news, mbind, method_bind, self_model, eval, assign.
  destruct (json.loads (actor_input self)) as [v|e].
  - destruct (Py.iter v) as [ns|e]; [|intros [= <- _]; by left].
    destruct (news_items ns) as [items|e] eqn:Hi; intros [= <- <-]; [|by left].
    right. exists items. split_and!; [done..|]. by apply news_items_allow_listed in Hi.
  - destruct e; intros [= <- _]; by left.
Qed.

(** The outcomes of [on_exit_ai_decides_path]: nothing written, or
    [rephrased_questions] replaced on a normal return. *)
Lemma on_exit_ai_decides_path_cases self m' r :
  on_exit_ai_decides_path self = (m', r) ->
  (m' = self /\ exists e, r = Raise e) \/
  (exists d qs,
      paths_of (actor_input self) d /\ rephrasings (bots self) d = Ok qs /\
      m' = set_rephrased_questions qs self /\ r = Ok tt).
Proof.
  destruct r as [[]|e].
  - intros (d & qs & ? & ? & ?)%on_exit_ai_decides_path_ok. right. eauto 8.
  - unfold on_exit_ai_decides_path, mbind, method_bind, self_model, eval, assign.
    destruct (json.loads (actor_input self)) as [v|e']; simpl.
    + destruct (Py.items v) as [items|]; [|intros [= <- _]; eauto].
      destruct (rephrasings (bots self) items); intros [= <-]; eauto.
    + destruct e'; simpl; intros [= <-]; eauto.
Qed.

(** [m'] differs from [m] at most in the fields the exit action of the
    state [s] is there to capture. *)
Definition writes_only (s : State) (m m' : MultiGenieModel) : Prop :=
  actor_input m' = actor_input m /\
  bots m' = bots m /\
  (original_question m' = original_question m \/
   s = intro \/ s = user_views_no_bots_found \/ s = user_views_answer) /\
  (rephrased_questions m' = rephrased_questions m \/ s = ai_decides_path) /\
  ((answer m' = answer m /\ follow_up m' = follow_up m) \/ s = ai_creates_answer) /\
  (news_queries m' = news_queries m \/ s = ai_creates_news_queries) /\
  (news m' = news m \/ s = searching_news).

Lemma writes_only_refl s m : writes_only s m m.
Proof. unfold writes_only. tauto. Qed.

Lemma exit_action_frame s action m m' r :
  exit_action s = Some action -> action m = (m', r) -> writes_only s m m'.
Proof.
  destruct s; simpl; intros [= <-] Ha.
  - injection Ha as <- _. unfold writes_only; simpl. tauto.
  - apply on_exit_ai_decides_path_cases in Ha
      as [[-> _] | (d & qs & _ & _ & -> & _)];
      unfold writes_only; simpl; tauto.
  - injection Ha as <- _. unfold writes_only; simpl. tauto.
  - apply capture_answer_cases in Ha
      as [-> | [(a & e & -> & _) | (a & f & -> & _)]];
      unfold writes_only; simpl; tauto.
  - injection Ha as <- _. unfold writes_only; simpl. tauto.
  - apply capture_news_cases in Ha as [-> | (items & -> & _)];
      unfold writes_only; simpl; tauto.
  - injection Ha as <- _. unfold writes_only; simpl. tauto.
Qed.

(** X1: each exit action writes only the fields of its own step, whether
    it returns or raises: [original_question] for the three states that
    wait for a question, [rephrased_questions] for [ai_decides_path],
    [answer] and [follow_up] for [ai_creates_answer], [news_queries] for
    [ai_creates_news_queries], [news] for [searching_news]; none writes
    [actor_input] or [bots]. *)
Theorem exit_action_writes_its_own_fields
  (s : State) (action : method unit) (m m' : MultiGenieModel) (r : result unit) :
  exit_action s = Some action -> action m = (m', r) -> writes_only s m m'.
Proof. apply exit_action_frame. Qed.

Lemma exit_action_writes_its_own_fields_witness :
  let m := set_actor_input (quoted "{'answer':'a'}") new_model in
  writes_only ai_creates_answer m (capture_answer m).1.
Proof.
  intros m.
  apply (exit_action_writes_its_own_fields ai_creates_answer capture_answer m
           (capture_answer m).1 (capture_answer m).2);
    [reflexivity | by destruct (capture_answer m)].
Defined.

(** ** The steps of the machine *)

Lemma candidates_source ev s t :
  t ∈ candidates ev s -> source t = s /\ t ∈ transitions ev.
Proof.
  unfold candidates. rewrite list_elem_of_In, filter_In, <- list_elem_of_In.
  intros [Ht Hs]. by apply bool_decide_eq_true in Hs.
Qed.

(** An event that fails before a transition is taken leaves the machine
    as it was; otherwise an allowed candidate is taken. *)
Lemma send_cases ev payload sm sm' r :
  send ev payload sm = (sm', r) ->
  (sm' = sm /\ exists e, r = Raise e) \/
  (exists t,
      t ∈ candidates ev (current_state sm) /\
      allowed t (model sm) payload = Ok true /\
      activate t payload sm = (sm', r)).
Proof.
  unfold send. induction (candidates ev (current_state sm)) as [|t ts IH]; simpl.
  - intros [= <- <-]. left. eauto.
  - destruct (allowed t (model sm) payload) as [[]|e] eqn:Ha.
    + intros H. right. exists t. split_and!; [left|done..].
    + intros [H | (t' & Hin & H)]%IH; [by left|].
      right. exists t'. split; [by right | done].
    + intros [= <- <-]. left. eauto.
Qed.

(** Taking a transition: the payload is received, the exit action of the
    source runs, and the target is entered unless the action raised. *)
Lemma activate_cases t payload sm sm' r :
  activate t payload sm = (sm', r) ->
  writes_only (source t) (receive payload (model sm)) (model sm') /\
  ((r = Ok tt /\ current_state sm' = target t) \/
   ((exists e, r = Raise e) /\ current_state sm' = current_state sm)).
Proof.
  unfold activate.
  destruct (exit_action (source t)) as [action|] eqn:He.
  - destruct (action (receive payload (model sm))) as [m' [u|e]] eqn:Ha;
      intros [= <- <-]; simpl;
      (split; [by eapply exit_action_frame|]); eauto.
  - intros [= <- <-]. simpl. split; [apply writes_only_refl | by left].
Qed.

(** ** Reachable machines *)

(** The machines a driver can get to from [sm0] by firing events,
    failed ones included (the machine is then as the failure left it). *)
Inductive reachable_from (sm0 : Machine) : Machine -> Prop :=
| reachable_start : reachable_from sm0 sm0
| reachable_send ev payload sm :
    reachable_from sm0 sm -> reachable_from sm0 (send ev payload sm).1.

Lemma reachable_run sm0 evs sm :
  reachable_from sm0 sm -> reachable_from sm0 (run evs sm).1.
Proof.
  revert sm. induction evs as [|[ev payload] evs IH]; intros sm Hsm; [done|].
  simpl. pose proof (reachable_send sm0 ev payload sm Hsm) as Hs.
  destruct (send ev payload sm) as [sm' [u|e]]; [by apply IH | done].
Qed.

Lemma reachable_invariant (P : Machine -> Prop) sm0 :
  P sm0 ->
  (forall ev payload sm, P sm -> P (send ev payload sm).1) ->
  forall sm, reachable_from sm0 sm -> P sm.
Proof. intros H0 Hstep sm. induction 1; auto. Qed.

(** What a step does to the model: nothing, or the payload is received
    and the exit action of the current state runs. *)
Lemma send_model ev payload sm :
  let sm' := (send ev payload sm).1 in
  sm' = sm \/
  writes_only (current_state sm) (receive payload (model sm)) (model sm').
Proof.
  intros sm'. subst sm'.
  destruct (send ev payload sm) as [sm' r] eqn:Hs. simpl.
  apply send_cases in Hs as [[-> _] | (t & Ht & _ & Ha)]; [by left|].
  apply candidates_source in Ht as [<- _].
  apply activate_cases in Ha as [Hw _]. by right.
Qed.

Lemma send_bots ev payload sm :
  bots (model (send ev payload sm).1) = bots (model sm).
Proof.
  destruct (send_model ev payload sm) as [-> | (_ & Hb & _)]; [done|].
  by rewrite Hb.
Qed.

(** X2: the catalogue of bots never changes: whatever events are fired
    and whether they succeed or fail, [bots] is what it was at the
    start. *)
Theorem bots_never_change (sm0 sm : Machine) :
  reachable_from sm0 sm -> bots (model sm) = bots (model sm0).
Proof.
  apply (reachable_invariant (fun sm => bots (model sm) = bots (model sm0)));
    [done|]. intros ev payload sm' <-. apply send_bots.
Qed.

Lemma bots_never_change_witness :
  bots (model (run first_round new_machine).1) = bots (model new_machine).
Proof.
  apply (bots_never_change new_machine (run first_round new_machine).1).
  apply reachable_run, reachable_start.
Defined.

(** A step in full: the event is refused or its guard raises and the
    machine is as it was, or an allowed transition [t] out of the current
    state is taken and the exit action of that state runs on the model
    that received the payload. *)
Lemma send_action ev payload sm sm' r :
  send ev payload sm = (sm', r) ->
  (sm' = sm /\ exists e, r = Raise e) \/
  (exists t,
      t ∈ candidates ev (current_state sm) /\
      allowed t (model sm) payload = Ok true /\
      match exit_action (current_state sm) with
      | None =>
          sm' = {| current_state := target t;
                   model := receive payload (model sm) |} /\ r = Ok tt
      | Some action =>
          exists m' r0,
            action (receive payload (model sm)) = (m', r0) /\
            ((r0 = Ok tt /\ r = Ok tt /\
              sm' = {| current_state := target t; model := m' |}) \/
             (exists e, r0 = Raise e /\ r = Raise e /\
              sm' = {| current_state := current_state sm; model := m' |}))
      end).
Proof.
  intros [H | (t & Ht & Hal & Ha)]%send_cases; [by left|].
  right. exists t. split_and!; [done..|].
  apply candidates_source in Ht as [Hs _]. unfold activate in Ha. rewrite Hs in Ha.
  destruct (exit_action (current_state sm)) as [action|].
  - destruct (action (receive payload (model sm))) as [m' [[]|e]] eqn:Hact;
      injection Ha as <- <-; exists m'; eauto 10.
  - by injection Ha as <- <-.
Qed.

(** ** Invariants of the model *)

(** The stored news hold allow-listed keys only. *)
Definition news_allow_listed (sm : Machine) : Prop :=
  Forall allow_listed (news (model sm)).

Lemma send_news_allow_listed ev payload sm :
  news_allow_listed sm -> news_allow_listed (send ev payload sm).1.
Proof.
  unfold news_allow_listed. intros Hk.
  destruct (send ev payload sm) as [sm' r] eqn:Hs. simpl.
  pose proof Hs as [[-> _] | (t & _ & _ & Ha)]%send_action; [done|].
  destruct (current_state sm) eqn:Hcs; simpl in Ha;
    try (destruct Ha as (m' & r0 & Hact & Hr);
         assert (Hm : model sm' = m')
           by (destruct Hr as [(_ & _ & ->) | (e & _ & _ & ->)]; reflexivity);
         rewrite Hm; clear Hr Hm).
  - by injection Hact as <- _.
  - apply on_exit_ai_decides_path_cases in Hact
      as [[-> _] | (d & qs & _ & Hq & -> & _)]; done.
  - by destruct Ha as [-> _].
  - by injection Hact as <- _.
  - apply capture_answer_cases in Hact
      as [-> | [(a & e & -> & _) | (a & f & -> & _)]]; done.
  - by injection Hact as <- _.
  - apply capture_news_cases in Hact as [-> | (items & -> & _ & Hi)]; done.
  - by injection Hact as <- _.
Qed.

(** X3: every item of [news] holds only keys of the allow-list [title],
    [url], [content], [publishedDate], each at most once and in that
    order, whatever the search payloads were (any value that decodes, not
    only well-formed sources) and after any sequence of events. *)
Theorem news_hold_allow_listed_keys (sm0 sm : Machine) :
  news_allow_listed sm0 -> reachable_from sm0 sm -> news_allow_listed sm.
Proof.
  intros H0. apply (reachable_invariant news_allow_listed); [done|].
  intros ev payload sm'. apply send_news_allow_listed.
Qed.

Lemma news_hold_allow_listed_keys_witness :
  news_allow_listed (run first_round new_machine).1.
Proof.
  apply (news_hold_allow_listed_keys new_machine).
  - constructor.
  - apply reachable_run, reachable_start.
Defined.

(** ** The route taken and the rephrasings stored *)

Lemma bots_found_true_inv self arg :
  bots_found self arg = Ok true ->
  exists d, json.loads arg = Ok (VDict d) /\ any_bot (bots self) d = Ok true.
Proof.
  unfold bots_found. destruct (json.loads arg) as [v|e]; [|discriminate].
  destruct v; try discriminate. simpl. eauto.
Qed.

Lemma bots_found_false_inv self arg :
  bots_found self arg = Ok false ->
  (exists e, json.loads arg = Raise e) \/
  (exists d, json.loads arg = Ok (VDict d) /\ any_bot (bots self) d = Ok false).
Proof.
  unfold bots_found. destruct (json.loads arg) as [v|e]; [|eauto].
  destruct v; try discriminate. simpl. eauto.
Qed.

Lemma rephrasings_not_nil bots d qs :
  any_bot bots d = Ok true -> rephrasings bots d = Ok qs -> qs <> [].
Proof.
  intros (d1 & [k v] & d2 & -> & _ & Hkv)%any_bot_true Hq%rephrasings_ok.
  apply entry_test_true, guard_accepts_test in Hkv.
  rewrite List.filter_app in Hq. simpl in Hq. rewrite Hkv in Hq.
  intros ->. apply Forall2_nil_inv_r in Hq.
  by destruct (List.filter (guard_accepts bots) d1).
Qed.

Lemma paths_of_mapping input d d' :
  json.loads input = Ok (VDict d) -> paths_of input d' -> d' = d.
Proof. intros H [H' | [H' _]]; congruence. Qed.

Lemma route_and_rephrasings self payload sm' :
  send processing_done payload
       {| current_state := ai_decides_path; model := self |} = (sm', Ok tt) ->
  (current_state sm' = user_views_rephrasing /\
   rephrased_questions (model sm') <> []) \/
  (current_state sm' = user_views_no_bots_found /\
   rephrased_questions (model sm') = []).
Proof.
  intros [[_ [e ?]] | (t & Ht & Hal & Ha)]%send_action; [done|].
  simpl in Ht, Hal, Ha. destruct Ha as (m' & r0 & Hact & Hr).
  destruct Hr as [(-> & _ & ->) | (e & _ & ? & _)]; [|done].
  apply on_exit_ai_decides_path_ok in Hact as (d & qs & Hp & Hq & ->).
  simpl in Hp, Hq. simpl.
  rewrite candidates_ai_decides_path in Ht.
  apply elem_of_cons in Ht as [-> | Ht]; [|apply list_elem_of_singleton in Ht as ->].
  - left. split; [done|]. rewrite allowed_to_rephrasing in Hal.
    apply bots_found_true_inv in Hal as (d' & Hl & Hany).
    rewrite (paths_of_mapping _ _ _ Hl Hp) in Hq.
    by apply (rephrasings_not_nil (bots self) d').
  - right. split; [done|]. rewrite allowed_to_no_bots_found in Hal.
    destruct (bots_found self payload) as [[]|] eqn:Hb; try discriminate.
    apply bots_found_false_inv in Hb as [[e He] | (d' & Hl & Hany)].
    + destruct Hp as [Hp | [_ ->]]; [congruence|]. by injection Hq as <-.
    + rewrite (paths_of_mapping _ _ _ Hl Hp) in Hq.
      apply any_bot_false, rephrasings_rejected in Hany. congruence.
Qed.

(** X4: when [processing_done] succeeds from [ai_decides_path], the route
    and the model agree: the machine is in [user_views_rephrasing] with at
    least one rephrased question stored, or in [user_views_no_bots_found]
    with none. *)
Theorem route_agrees_with_rephrased_questions
  (self : MultiGenieModel) (payload : string) (sm' : Machine) :
  send processing_done payload
       {| current_state := ai_decides_path; model := self |} = (sm', Ok tt) ->
  (current_state sm' = user_views_rephrasing /\
   rephrased_questions (model sm') <> []) \/
  (current_state sm' = user_views_no_bots_found /\
   rephrased_questions (model sm') = []).
Proof. apply route_and_rephrasings. Qed.

Lemma route_agrees_with_rephrased_questions_witness :
  let payload := quoted "{'Task Dictionary':{'question':'q1','reason':'r1'}}" in
  let sm := {| current_state := ai_decides_path; model := new_model |} in
  (current_state (send processing_done payload sm).1 = user_views_rephrasing /\
   rephrased_questions (model (send processing_done payload sm).1) <> []) \/
  (current_state (send processing_done payload sm).1 = user_views_no_bots_found /\
   rephrased_questions (model (send processing_done payload sm).1) = []).
Proof.
  intros payload sm.
  apply (route_agrees_with_rephrased_questions new_model payload).
  vm_compute. reflexivity.
Defined.

(** ** The shape of the transition table *)

(** The moves the table declares: source, event, target. *)
Definition edges : list (State * Event * State) :=
  List.flat_map
    (fun ev => List.map (fun t => (source t, ev, target t)) (transitions ev))
    [user_input; processing_done; advance].

Lemma candidates_edges ev s t :
  t ∈ candidates ev s -> (s, ev, target t) ∈ edges.
Proof.
  intros [<- Ht]%candidates_source.
  apply list_elem_of_In, in_flat_map. exists ev. split.
  - destruct ev; simpl; tauto.
  - apply in_map_iff. exists t. by rewrite <- list_elem_of_In.
Qed.

(** The state after a step: the state before, or the target of a
    declared move on a success. *)
Lemma send_state ev payload sm sm' r :
  send ev payload sm = (sm', r) ->
  current_state sm' = current_state sm \/
  (r = Ok tt /\ (current_state sm, ev, current_state sm') ∈ edges).
Proof.
  intros [[-> _] | (t & Ht & _ & Ha)]%send_cases; [by left|].
  apply activate_cases in Ha as [_ [[-> Hs] | [_ Hs]]]; [|by left].
  right. split; [done|]. rewrite Hs. by apply candidates_edges.
Qed.

Lemma edges_never_enter_intro s ev : (s, ev, intro) ∉ edges.
Proof.
  unfold edges; simpl. rewrite !not_elem_of_cons. split_and!; try discriminate.
  apply not_elem_of_nil.
Qed.

Lemma send_leaves_intro ev payload sm :
  current_state sm = intro ->
  (send ev payload sm).1 = sm \/ current_state (send ev payload sm).1 <> intro.
Proof.
  intros Hi. destruct (send ev payload sm) as [sm' r] eqn:Hs. simpl.
  apply send_action in Hs as [[-> _] | (t & Ht & _ & Ha)]; [by left|].
  right. rewrite Hi in Ha, Ht. simpl in Ha.
  destruct Ha as (m' & r0 & Hact & Hr). injection Hact as <- <-.
  destruct Hr as [(_ & _ & ->) | (e & ? & _)]; [|done]. simpl.
  apply candidates_edges in Ht. intros Hin. rewrite Hin in Ht.
  by apply edges_never_enter_intro in Ht.
Qed.

(** X5: [intro] is only ever the first state, and nothing is written
    while the machine is in it: after any sequence of events, the machine
    is untouched (every event so far was refused) or it is in a state
    other than [intro], which it never enters again. *)
Theorem intro_is_never_entered (sm0 sm : Machine) :
  reachable_from sm0 sm -> sm = sm0 \/ current_state sm <> intro.
Proof.
  apply (reachable_invariant (fun sm => sm = sm0 \/ current_state sm <> intro));
    [by left|].
  intros ev payload sm' IH.
  destruct (decide (current_state sm' = intro)) as [Hi | Hi].
  - destruct IH as [-> | ?]; [|done]. by apply send_leaves_intro.
  - right. destruct (send ev payload sm') as [sm'' r] eqn:Hs. simpl.
    apply send_state in Hs as [-> | [_ He]]; [done|].
    intros Hin. rewrite Hin in He. by apply edges_never_enter_intro in He.
Qed.

Lemma intro_is_never_entered_witness :
  (run first_round new_machine).1 = new_machine \/
  current_state (run first_round new_machine).1 <> intro.
Proof.
  apply (intro_is_never_entered new_machine).
  apply reachable_run, reachable_start.
Defined.

(** X6: every state waits for exactly one event: one of [user_input],
    [processing_done] and [advance] has a transition out of it, and the
    other two have none (they are refused there). *)
Theorem every_state_waits_for_one_event (s : State) :
  exists ev,
    candidates ev s <> [] /\ forall ev', candidates ev' s <> [] -> ev' = ev.
Proof.
  destruct s;
    [ exists user_input | exists processing_done | exists advance
    | exists user_input | exists processing_done | exists processing_done
    | exists processing_done | exists user_input ];
    (split; [discriminate | by intros []]).
Qed.

(** ** The lists the map tasks go over *)

(** In the states whose work is a map task the list it goes over is not
    empty: [rephrased_questions] once bots were found and while the
    answers are made, [news_queries] while the news are searched; and in
    [user_views_no_bots_found] no rephrased question is stored. *)
Definition fan_out_ready (sm : Machine) : Prop :=
  match current_state sm with
  | user_views_rephrasing | ai_creates_answer =>
      rephrased_questions (model sm) <> []
  | user_views_no_bots_found => rephrased_questions (model sm) = []
  | searching_news => news_queries (model sm) <> []
  | _ => True
  end.

Lemma send_fan_out_ready ev payload sm :
  fan_out_ready sm -> fan_out_ready (send ev payload sm).1.
Proof.
  destruct sm as [s m]. unfold fan_out_ready at 1. simpl. intros Hinv.
  destruct (send ev payload {| current_state := s; model := m |})
    as [sm' r] eqn:Hs. simpl.
  destruct s.
  - (* intro *)
    apply send_action in Hs as [[-> _] | (t & Ht & _ & Ha)]; [done|].
    simpl in Ha. destruct Ha as (m' & r0 & [= <- <-] & Hr).
    destruct Hr as [(_ & _ & ->) | (e & ? & _)]; [|done].
    destruct ev; simpl in Ht; try by apply elem_of_nil in Ht.
    by apply list_elem_of_singleton in Ht as ->.
  - (* ai_decides_path *)
    destruct r as [[]|e].
    + destruct ev;
        try (apply send_cases in Hs as [[_ [? ?]] | (t & Ht & _)];
             [done | by apply elem_of_nil in Ht]).
      apply route_and_rephrasings in Hs as [[Hc Hq] | [Hc Hq]];
        unfold fan_out_ready; by rewrite Hc.
    + apply send_state in Hs as [Hc | [? _]]; [|done].
      unfold fan_out_ready. by rewrite Hc.
  - (* user_views_rephrasing *)
    apply send_action in Hs as [[-> _] | (t & Ht & _ & Ha)]; [done|].
    simpl in Ha. destruct Ha as [-> _].
    destruct ev; simpl in Ht; try by apply elem_of_nil in Ht.
    by apply list_elem_of_singleton in Ht as ->.
  - (* user_views_no_bots_found *)
    apply send_action in Hs as [[-> _] | (t & Ht & _ & Ha)]; [done|].
    simpl in Ha. destruct Ha as (m' & r0 & [= <- <-] & Hr).
    destruct Hr as [(_ & _ & ->) | (e & ? & _)]; [|done].
    destruct ev; simpl in Ht; try by apply elem_of_nil in Ht.
    by apply list_elem_of_singleton in Ht as ->.
  - (* ai_creates_answer *)
    apply send_action in Hs as [[-> _] | (t & Ht & _ & Ha)]; [done|].
    simpl in Ha. destruct Ha as (m' & r0 & Hact & Hr).
    destruct Hr as [(_ & _ & ->) | (e & _ & _ & ->)].
    + destruct ev; simpl in Ht; try by apply elem_of_nil in Ht.
      by apply list_elem_of_singleton in Ht as ->.
    + unfold fan_out_ready. simpl.
      apply capture_answer_cases in Hact
        as [-> | [(a & e' & -> & _) | (a & f & -> & _)]]; done.
  - (* ai_creates_news_queries *)
    apply send_action in Hs as [[-> _] | (t & Ht & _ & Ha)]; [done|].
    simpl in Ha. destruct Ha as (m' & r0 & [= <- <-] & Hr).
    destruct Hr as [(_ & _ & ->) | (e & ? & _)]; [|done].
    destruct ev; simpl in Ht; try by apply elem_of_nil in Ht.
    apply list_elem_of_singleton in Ht as ->.
    unfold fan_out_ready. simpl. intros Hnil%fmap_nil_inv.
    by apply split_not_nil in Hnil.
  - (* searching_news *)
    apply send_action in Hs as [[-> _] | (t & Ht & _ & Ha)]; [done|].
    simpl in Ha. destruct Ha as (m' & r0 & Hact & Hr).
    destruct Hr as [(_ & _ & ->) | (e & -> & _ & ->)].
    + destruct ev; simpl in Ht; try by apply elem_of_nil in Ht.
      by apply list_elem_of_singleton in Ht as ->.
    + unfold fan_out_ready. simpl.
      apply capture_news_cases in Hact as [-> | (items & _ & ? & _)]; done.
  - (* user_views_answer *)
    apply send_action in Hs as [[-> _] | (t & Ht & _ & Ha)]; [done|].
    simpl in Ha. destruct Ha as (m' & r0 & [= <- <-] & Hr).
    destruct Hr as [(_ & _ & ->) | (e & ? & _)]; [|done].
    destruct ev; simpl in Ht; try by apply elem_of_nil in Ht.
    by apply list_elem_of_singleton in Ht as ->.
Qed.

(** X7: along every conversation, failed events included, a map task
    never gets an empty list (from a machine where this holds, a new
    machine for one):
    [rephrased_questions] is not empty in [user_views_rephrasing] and
    [ai_creates_answer], [news_queries] is not empty in [searching_news];
    and [rephrased_questions] is empty in [user_views_no_bots_found]. *)
Theorem map_tasks_never_get_an_empty_list (sm0 sm : Machine) :
  fan_out_ready sm0 -> reachable_from sm0 sm -> fan_out_ready sm.
Proof.
  intros H0. apply (reachable_invariant fan_out_ready); [done|].
  intros ev payload sm'. apply send_fan_out_ready.
Qed.

Lemma map_tasks_never_get_an_empty_list_witness :
  fan_out_ready
    (run [ (user_input, "What is X?");
           (processing_done,
             quoted "{'Task Dictionary':{'question':'q1','reason':'r1'}}");
           (advance, "") ] new_machine).1.
Proof.
  apply (map_tasks_never_get_an_empty_list new_machine).
  - exact I.
  - apply reachable_run, reachable_start.
Defined.

(** ** More on the capture functions *)

(** How many times [c] occurs in [s]. *)
Fixpoint occurrences (c : ascii) (s : string) : nat :=
  match s with
  | EmptyString => 0
  | String c' s' => (if Ascii.eqb c' c then 1 else 0) + occurrences c s'
  end.

Lemma length_split sep s :
  List.length (Py.split sep s) = S (occurrences sep s).
Proof.
  induction s as [|c s IH]; [done|]. simpl.
  destruct (Ascii.eqb c sep); simpl; [by rewrite IH|].
  rewrite <- IH. pose proof (split_not_nil sep s).
  by destruct (Py.split sep s).
Qed.

Lemma remove_occurs c c' s : occurs c (Py.remove c' s) -> occurs c s.
Proof.
  unfold occurs. rewrite remove_filter, filter_In. tauto.
Qed.

(** X8: [capture_news_queries] never raises and never stores an empty
    list: it stores one query more than the input has newline characters
    (one empty query for an empty input), and no query holds a newline or
    a quote character. *)
Theorem news_queries_are_never_empty (self : MultiGenieModel) :
  (capture_news_queries self).2 = Ok tt /\
  List.length (news_queries (capture_news_queries self).1) =
    S (occurrences newline (actor_input self)) /\
  Forall (fun q => ~ occurs newline q /\ ~ occurs quote q)
         (news_queries (capture_news_queries self).1).
Proof.
  split_and!; [done| |]; simpl.
  - by rewrite length_map, length_split.
  - apply Forall_fmap, Forall_forall. intros l Hl. simpl. split.
    + intros Hn%remove_occurs.
      pose proof (split_no_separator newline (actor_input self)) as Hs.
      rewrite Forall_forall in Hs. by apply (Hs l).
    + unfold occurs. rewrite remove_filter, filter_In.
      intros [_ Hq]. by rewrite Ascii.eqb_refl in Hq.
Qed.




(** X10: [capture_news] and [on_exit_ai_decides_path] write nothing when
    they raise: the model is exactly as it was before the call. *)
Theorem a_failed_capture_writes_nothing (self m' : MultiGenieModel) (e : exn) :
  (capture_news self = (m', Raise e) -> m' = self) /\
  (on_exit_ai_decides_path self = (m', Raise e) -> m' = self).
Proof.
  split.
  - by intros [-> | (items & _ & ? & _)]%capture_news_cases.
  - by intros [[-> _] | (d & qs & _ & _ & _ & ?)]%on_exit_ai_decides_path_cases.
Qed.

Lemma a_failed_capture_writes_nothing_witness :
  let news_input := set_actor_input (quoted "[{'hits':[]}]") new_model in
  let path_input := set_actor_input (quoted "{'Task Dictionary':{'question':'q'}}") new_model in
  (capture_news news_input).1 = news_input /\
  (on_exit_ai_decides_path path_input).1 = path_input.
Proof.
  intros news_input path_input. split.
  - apply (proj1 (a_failed_capture_writes_nothing news_input
                    (capture_news news_input).1 KeyError)).
    vm_compute. reflexivity.
  - apply (proj2 (a_failed_capture_writes_nothing path_input
                    (on_exit_ai_decides_path path_input).1 KeyError)).
    vm_compute. reflexivity.
Defined.

(** X11: when [capture_answer] returns normally it wrote both fields or
    none: either the input was not JSON and the model is as it was, or
    the input decoded to a mapping and [answer] and [follow_up] are the
    values under its keys [answer] and [follow_up]. *)
Theorem capture_answer_returns_with_both_or_none (self m' : MultiGenieModel) :
  capture_answer self = (m', Ok tt) ->
  (json.loads (actor_input self) = Raise JSONDecodeError /\ m' = self) \/
  (exists d a f,
      json.loads (actor_input self) = Ok (VDict d) /\
      Py.dict_get d "answer" = Some a /\ Py.dict_get d "follow_up" = Some f /\
      m' = set_follow_up f (set_answer a self)).
Proof.
  unfold capture_answer, mbind, method_bind, self_model, eval, assign.
  destruct (json.loads (actor_input self)) as [v|e].
  - destruct v; simpl; try discriminate.
    destruct (Py.dict_get d "answer") as [a|] eqn:Ha; [|discriminate]. simpl.
    destruct (Py.dict_get d "follow_up") as [f|] eqn:Hf; [|discriminate].
    intros [= <-]. right. by exists d, a, f.
  - destruct e; try discriminate. intros [= <-]. by left.
Qed.

Lemma capture_answer_returns_with_both_or_none_witness :
  let self := set_actor_input (quoted "{'answer':'a1','follow_up':'f1'}") new_model in
  (json.loads (actor_input self) = Raise JSONDecodeError /\
   (capture_answer self).1 = self) \/
  (exists d a f,
      json.loads (actor_input self) = Ok (VDict d) /\
      Py.dict_get d "answer" = Some a /\ Py.dict_get d "follow_up" = Some f /\
      (capture_answer self).1 = set_follow_up f (set_answer a self)).
Proof.
  intros self.
  apply (capture_answer_returns_with_both_or_none self (capture_answer self).1).
  vm_compute. reflexivity.
Defined.



(** ** A whole round *)

Lemma send_routes_found self payload d qs :
  json.loads payload = Ok (VDict d) ->
  any_bot (bots self) d = Ok true ->
  rephrasings (bots self) d = Ok qs ->
  send processing_done payload
       {| current_state := ai_decides_path; model := self |} =
    ({| current_state := user_views_rephrasing;
        model := set_rephrased_questions qs (receive payload self) |}, Ok tt).
Proof.
  intros Hl Hany Hq.
  rewrite (send_from_ai_decides_path self payload true)
    by (by rewrite (bots_found_mapping _ _ d Hl)).
  unfold activate; simpl.
  rewrite (on_exit_ai_decides_path_paths (receive payload self) d) by (by left).
  simpl bots. by rewrite Hq.
Qed.

Lemma send_answer self payload d a f :
  json.loads payload = Ok (VDict d) ->
  Py.dict_get d "answer" = Some a -> Py.dict_get d "follow_up" = Some f ->
  send processing_done payload
       {| current_state := ai_creates_answer; model := self |} =
    ({| current_state := ai_creates_news_queries;
        model := set_follow_up f (set_answer a (receive payload self)) |}, Ok tt).
Proof.
  intros Hl Ha Hf.
  change (send processing_done payload
            {| current_state := ai_creates_answer; model := self |})
    with (match capture_answer (receive payload self) with
          | (m', Ok _) =>
              ({| current_state := ai_creates_news_queries; model := m' |}, Ok tt)
          | (m', Raise e) =>
              ({| current_state := ai_creates_answer; model := m' |}, Raise e)
          end).
  unfold capture_answer, mbind, method_bind, self_model, eval, assign.
  replace (actor_input (receive payload self)) with payload by reflexivity.
  rewrite Hl. simpl. by rewrite Ha, Hf.
Qed.

Lemma send_news self payload ns sources :
  json.loads payload = Ok (VList ns) ->
  Forall2 source_entry ns sources ->
  send processing_done payload
       {| current_state := searching_news; model := self |} =
    ({| current_state := user_views_answer;
        model := set_news (first_results sources) (receive payload self) |}, Ok tt).
Proof.
  intros Hl Hs.
  change (send processing_done payload
            {| current_state := searching_news; model := self |})
    with (match capture_news (receive payload self) with
          | (m', Ok _) =>
              ({| current_state := user_views_answer; model := m' |}, Ok tt)
          | (m', Raise e) =>
              ({| current_state := searching_news; model := m' |}, Raise e)
          end).
  unfold capture_news, mbind, method_bind, self_model, eval, assign.
  replace (actor_input (receive payload self)) with payload by reflexivity.
  rewrite Hl. simpl Py.iter. cbv beta iota.
  by rewrite (news_items_of_sources ns sources Hs).
Qed.

(** The events of a round after the question: the routing answer, the
    user's go-ahead, the answer, the news queries, the search results. *)
Definition round (routing go answer queries results : string)
  : list (Event * string) :=
  [ (processing_done, routing); (advance, go); (processing_done, answer);
    (processing_done, queries); (processing_done, results) ].

(** X13: a round with well-formed payloads runs to the end.  From
    [ai_decides_path], when the routing payload is a mapping with an
    accepted bot on which the exit action completes, the answer payload a
    mapping with [answer] and [follow_up], and the search payload a list
    of sources, the five events succeed one after the other, the machine
    ends in [user_views_answer], and each field holds what its step
    captured; [original_question] and [bots] are as they were. *)
Theorem a_well_formed_round_completes
  (self : MultiGenieModel) (routing go answer_text queries results : string)
  (d : dict) (qs : list dict) (ad : dict) (a f : value)
  (ns : list value) (sources : list (list dict)) :
  json.loads routing = Ok (VDict d) ->
  any_bot (bots self) d = Ok true ->
  rephrasings (bots self) d = Ok qs ->
  json.loads answer_text = Ok (VDict ad) ->
  Py.dict_get ad "answer" = Some a ->
  Py.dict_get ad "follow_up" = Some f ->
  json.loads results = Ok (VList ns) ->
  Forall2 source_entry ns sources ->
  exists m',
    run (round routing go answer_text queries results)
        {| current_state := ai_decides_path; model := self |} =
      ({| current_state := user_views_answer; model := m' |}, Ok tt) /\
    rephrased_questions m' = qs /\
    answer m' = a /\ follow_up m' = f /\
    news_queries m' = List.map (Py.remove quote) (Py.split newline queries) /\
    news m' = first_results sources /\
    original_question m' = original_question self /\
    bots m' = bots self /\
    actor_input m' = results.
Proof.
  intros Hr Hany Hq Ha Haa Haf Hn Hs. eexists. split.
  - unfold round, run.
    rewrite (send_routes_found self routing d qs Hr Hany Hq).
    change (send advance go _) with
      ({| current_state := ai_creates_answer;
          model := receive go (set_rephrased_questions qs (receive routing self)) |},
       Ok tt).
    cbv beta iota.
    rewrite (send_answer _ answer_text ad a f Ha Haa Haf).
    match goal with
    | |- context [send processing_done queries ?sm] =>
        change (send processing_done queries sm)
          with ({| current_state := searching_news;
                   model :=
                     set_news_queries
                       (List.map (Py.remove quote) (Py.split newline queries))
                       (receive queries (model sm)) |}, Ok tt)
    end.
    cbv beta iota.
    rewrite (send_news _ results ns sources Hn Hs). reflexivity.
  - simpl. split_and!; reflexivity.
Qed.

Lemma a_well_formed_round_completes_witness :
  exists m',
    run (round (quoted "{'Task Dictionary':{'question':'q1','reason':'r1'}}")
               "go"
               (quoted "{'answer':'a1','follow_up':'f1'}")
               (quoted "'X' news")
               (quoted "[{'results':[{'title':'t','url':'u'}]},{'results':[]}]"))
        {| current_state := ai_decides_path; model := new_model |} =
      ({| current_state := user_views_answer; model := m' |}, Ok tt) /\
    rephrased_questions m' =
      [rephrasing default_bots "Task Dictionary" (VStr "q1") (VStr "r1")] /\
    answer m' = VStr "a1" /\ follow_up m' = VStr "f1" /\
    news_queries m' =
      List.map (Py.remove quote) (Py.split newline (quoted "'X' news")) /\
    news m' = first_results [[[("title", VStr "t"); ("url", VStr "u")]]; []] /\
    original_question m' = original_question new_model /\
    bots m' = bots new_model /\
    actor_input m' =
      quoted "[{'results':[{'title':'t','url':'u'}]},{'results':[]}]".
Proof.
  apply (a_well_formed_round_completes new_model _ "go" _ _ _
           [("Task Dictionary", VDict [("question", VStr "q1"); ("reason", VStr "r1")])]
           _
           [("answer", VStr "a1"); ("follow_up", VStr "f1")] _ _
           [VDict [("results", VList [VDict [("title", VStr "t"); ("url", VStr "u")]])];
            VDict [("results", VList [])]]
           [[[("title", VStr "t"); ("url", VStr "u")]]; []]);
    try (vm_compute; reflexivity).
  repeat constructor.
Defined.

(** ** The declarations of the class *)

(** The name a state is declared under. *)
Definition state_id (s : State) : string :=
  match s with
  | intro => "intro"
  | ai_decides_path => "ai_decides_path"
  | user_views_rephrasing => "user_views_rephrasing"
  | user_views_no_bots_found => "user_views_no_bots_found"
  | ai_creates_answer => "ai_creates_answer"
  | ai_creates_news_queries => "ai_creates_news_queries"
  | searching_news => "searching_news"
  | user_views_answer => "user_views_answer"
  end.

(** What [templates] gives for a state: the path of a template, a map
    task (a template and the list it is rendered over), a list of
    templates, or templates by the name of the field they fill. *)
#[local] Unset Elimination Schemes.
Inductive Template : Type :=
| TemplatePath (path : string)
| MapTaskTemplate (template_name list_attribute : string)
| TemplateList (l : list Template)
| TemplateDict (d : list (string * Template)).
#[local] Set Elimination Schemes.

(** The [templates] of the machine, by state name. *)
Definition templates : list (string * Template) :=
  [ ("intro", TemplatePath "response/intro.jinja2");
    ("ai_decides_path", TemplatePath "hyperagent/choose_bot.jinja2");
    ("user_views_rephrasing", TemplatePath "response/user_views_rephrasing.jinja2");
    ("user_views_no_bots_found", TemplatePath "response/no_bots.jinja2");
    ("ai_creates_answer",
      TemplateList
        [ MapTaskTemplate "llm_answer/ai_answers_question.jinja2"
                          "rephrased_questions[*]";
          TemplateDict
            [ ("answer", TemplatePath "llm_answer/ai_consolidates_answers.jinja2");
              ("follow_up", TemplatePath "llm_converse/ai_ask_followup.jinja2") ] ]);
    ("ai_creates_news_queries",
      TemplatePath "llm_converse/ai_creates_news_queries.jinja2");
    ("searching_news",
      MapTaskTemplate "web_search/search_news.jinja2" "news_queries[*]");
    ("user_views_answer", TemplatePath "response/user_views_answer.jinja2") ].

(** [templates[name]]. *)
Fixpoint template_of (table : list (string * Template)) (name : string)
  : option Template :=
  match table with
  | [] => None
  | (k, t) :: table' => if String.eqb k name then Some t else template_of table' name
  end.

(** All the states, in the order they are declared. *)
Definition states : list State :=
  [ intro; ai_decides_path; user_views_rephrasing; user_views_no_bots_found;
    ai_creates_answer; ai_creates_news_queries; searching_news; user_views_answer ].

(** X14: the values the states are declared with are pairwise different,
    so the value stored for a conversation tells its state. *)
Theorem state_values_are_distinct :
  NoDup (List.map state_value states) /\
  (forall s1 s2, state_value s1 = state_value s2 -> s1 = s2).
Proof.
  split; [compute_done|]. intros s1 s2. by destruct s1, s2.
Qed.

(** X15: [templates] has an entry for every state and for nothing else:
    its keys are the names of the states, each once. *)
Theorem every_state_has_a_template :
  List.map fst templates = List.map state_id states /\
  NoDup (List.map state_id states) /\
  (forall s, s ∈ states) /\
  (forall s, is_Some (template_of templates (state_id s))).
Proof.
  split_and!.
  - reflexivity.
  - apply (NoDup_fmap_2_strong state_id).
    + intros s1 s2 _ _. by destruct s1, s2.
    + compute_done.
  - intros s. destruct s; compute_done.
  - intros s. by destruct s; eexists.
Qed.

(** ** Only the first result of a source is read *)

(** What [capture_news] reads of a source: whether it has a result, and
    its first result, a mapping; the results after the first can be any
    values. *)
Definition source_first (n : value) (first : option dict) : Prop :=
  match first with
  | None => Py.getitem n "results" = Ok (VList [])
  | Some r => exists others, Py.getitem n "results" = Ok (VList (VDict r :: others))
  end.

Lemma news_items_of_firsts ns firsts :
  Forall2 source_first ns firsts ->
  news_items ns = Ok (omap (fmap allowed_fields) firsts).
Proof.
  induction 1 as [|n first ns firsts Hn _ IH]; [done|].
  rewrite news_items_cons. destruct first as [r|]; simpl in Hn.
  - destruct Hn as [others Hn]. rewrite Hn, result_bind_ok.
    rewrite (first_result_of_mapping n r others) by done. by rewrite IH.
  - by rewrite Hn, result_bind_ok.
Qed.

(** X16: [capture_news] reads only the first result of each source: for
    a list of sources whose [results] is empty or starts with a mapping,
    [news] is the allow-listed part of each first result, whatever values
    follow it; and a first result with none of the allow-listed keys
    gives an empty item, which is kept. *)
Theorem capture_news_reads_the_first_result
  (self : MultiGenieModel) (ns : list value) (firsts : list (option dict)) :
  json.loads (actor_input self) = Ok (VList ns) ->
  Forall2 source_first ns firsts ->
  capture_news self =
    (set_news (omap (fmap allowed_fields) firsts) self, Ok tt) /\
  (forall r, (forall k, k ∈ news_keys -> Py.dict_get r k = None) ->
             allowed_fields r = []).
Proof.
  intros Hl Hs. split.
  - unfold capture_news, mbind, method_bind, self_model, eval, assign.
    rewrite Hl. simpl Py.iter. cbv beta iota.
    by rewrite (news_items_of_firsts ns firsts Hs).
  - intros r Hr. unfold allowed_fields, news_keys.
    simpl. rewrite !Hr by (unfold news_keys; set_solver). done.
Qed.

Lemma capture_news_reads_the_first_result_witness :
  let self :=
    set_actor_input
      (quoted "[{'results':[{'score':1},'text',7]},{'results':[]}]") new_model in
  capture_news self = (set_news [[]] self, Ok tt) /\
  (forall r, (forall k, k ∈ news_keys -> Py.dict_get r k = None) ->
             allowed_fields r = []).
Proof.
  intros self.
  apply (capture_news_reads_the_first_result self
           [VDict [("results", VList [VDict [("score", VInt 1)]; VStr "text"; VInt 7])];
            VDict [("results", VList [])]]
           [Some [("score", VInt 1)]; None]).
  - vm_compute. reflexivity.
  - repeat constructor. by exists [VStr "text"; VInt 7].
Defined.

(** ** The shape of the stored rephrasings *)

(** A stored rephrasing: the four fields [name], [template], [question]
    and [reason], of a bot of the catalogue with its template, and with a
    question that is not empty. *)
Definition well_formed_rephrasing (bots : gmap string string) (entry : dict)
  : Prop :=
  exists bot_name t q r,
    bots !! bot_name = Some t /\ Py.truthy q = true /\
    entry = [("name", VStr bot_name); ("template", VStr t);
             ("question", q); ("reason", r)].

Lemma rephrasings_well_formed bots d qs :
  rephrasings bots d = Ok qs -> Forall (well_formed_rephrasing bots) qs.
Proof.
  revert qs. induction d as [|[k v] d IH]; intros qs.
  - intros [= <-]. constructor.
  - rewrite rephrasings_cons.
    destruct (entry_test bots k v) as [[]|e] eqn:Ht; simpl; try discriminate.
    + apply entry_test_true in Ht as ([t Hk] & _ & q & Hq & Hqt).
      simpl in Hk, Hq. rewrite Hq, result_bind_ok.
      destruct (Py.getitem v "reason") as [r|]; [|discriminate].
      destruct (rephrasings bots d) as [ds|]; [|discriminate].
      rewrite !result_bind_ok. intros [= <-]. constructor; [|by apply IH].
      exists k, t, q, r. split_and!; [done..|].
      unfold rephrasing. by rewrite Hk.
    + apply IH.
Qed.

(** What a step does to [rephrased_questions]: nothing, or they are
    replaced by the rephrasings of a mapping. *)
Lemma send_rephrased_questions ev payload sm :
  rephrased_questions (model (send ev payload sm).1) =
    rephrased_questions (model sm) \/
  exists d,
    rephrasings (bots (model sm)) d =
      Ok (rephrased_questions (model (send ev payload sm).1)).
Proof.
  destruct (send ev payload sm) as [sm' r] eqn:Hs. simpl.
  pose proof Hs as [[-> _] | (t & _ & _ & Ha)]%send_action; [by left|].
  destruct (current_state sm) eqn:Hcs; simpl in Ha;
    try (destruct Ha as (m' & r0 & Hact & Hr);
         assert (Hm : model sm' = m')
           by (destruct Hr as [(_ & _ & ->) | (e & _ & _ & ->)]; reflexivity);
         rewrite Hm; clear Hr Hm).
  - injection Hact as <- _. by left.
  - apply on_exit_ai_decides_path_cases in Hact
      as [[-> _] | (d & qs & _ & Hq & -> & _)]; [by left|].
    right. by exists d.
  - destruct Ha as [-> _]. by left.
  - injection Hact as <- _. by left.
  - apply capture_answer_cases in Hact
      as [-> | [(a & e & -> & _) | (a & f & -> & _)]]; by left.
  - injection Hact as <- _. by left.
  - apply capture_news_cases in Hact as [-> | (items & -> & _)]; by left.
  - injection Hact as <- _. by left.
Qed.

Definition rephrasings_well_formed_in (sm : Machine) : Prop :=
  Forall (well_formed_rephrasing (bots (model sm)))
         (rephrased_questions (model sm)).

(** X17: every stored rephrasing has exactly the fields [name],
    [template], [question] and [reason], in that order, names a bot of the
    catalogue with its template, and has a question that is not empty, at
    the start and after any sequence of events. *)
Theorem stored_rephrasings_are_well_formed (sm0 sm : Machine) :
  rephrasings_well_formed_in sm0 -> reachable_from sm0 sm ->
  rephrasings_well_formed_in sm.
Proof.
  intros H0. apply (reachable_invariant rephrasings_well_formed_in); [done|].
  intros ev payload sm'. unfold rephrasings_well_formed_in. intros IH.
  rewrite send_bots.
  destruct (send_rephrased_questions ev payload sm') as [-> | [d Hd]]; [done|].
  by apply rephrasings_well_formed in Hd.
Qed.

Lemma stored_rephrasings_are_well_formed_witness :
  rephrasings_well_formed_in (run first_round new_machine).1.
Proof.
  apply (stored_rephrasings_are_well_formed new_machine).
  - constructor.
  - apply reachable_run, reachable_start.
Defined.

(** ** The question during a round *)

Lemma send_original_question ev payload sm :
  ev <> user_input ->
  original_question (model (send ev payload sm).1) = original_question (model sm).
Proof.
  intros Hev. destruct (send ev payload sm) as [sm' r] eqn:Hs. simpl.
  pose proof Hs as [[-> _] | (t & Ht & _ & Ha)]%send_action; [done|].
  destruct (current_state sm) eqn:Hcs; simpl in Ha;
    try (destruct Ha as (m' & r0 & Hact & Hr);
         assert (Hm : model sm' = m')
           by (destruct Hr as [(_ & _ & ->) | (e & _ & _ & ->)]; reflexivity);
         rewrite Hm; clear Hr Hm);
    try (by destruct ev; simpl in Ht; try apply elem_of_nil in Ht).
  - apply on_exit_ai_decides_path_cases in Hact
      as [[-> _] | (d & qs & _ & Hq & -> & _)]; done.
  - by destruct Ha as [-> _].
  - apply capture_answer_cases in Hact
      as [-> | [(a & e & -> & _) | (a & f & -> & _)]]; done.
  - by injection Hact as <- _.
  - apply capture_news_cases in Hact as [-> | (items & -> & _)]; done.
Qed.

(** X18: only [user_input] changes [original_question]: whatever the
    state and the payload, [processing_done] and [advance] leave it as it
    is, whether they succeed, fail or are refused, so the question asked
    stays the same through a whole round. *)
Theorem only_user_input_changes_the_question
  (ev : Event) (payload : string) (sm : Machine) :
  ev <> user_input ->
  original_question (model (send ev payload sm).1) = original_question (model sm).
Proof. apply send_original_question. Qed.

Lemma only_user_input_changes_the_question_witness :
  let sm := (run [(user_input, "What is X?")] new_machine).1 in
  original_question (model (send processing_done "{}" sm).1) =
    original_question (model sm).
Proof.
  intros sm. by apply (only_user_input_changes_the_question processing_done "{}" sm).
Defined.

(** ** When the guard holds and when the exit action completes *)

(** X19: the guard looks at the entries in order and stops at the first
    it accepts.  [bots_found] returns true exactly when the payload
    decodes to a mapping with an accepted entry before which every entry
    is rejected (what follows is not looked at), and false exactly when
    the payload does not decode or decodes to a mapping all of whose
    entries are rejected. *)
Theorem bots_found_stops_at_the_first_accepted
  (self : MultiGenieModel) (arg : string) :
  (bots_found self arg = Ok true <->
   exists d1 kv d2,
     json.loads arg = Ok (VDict (d1 ++ kv :: d2)%list) /\
     Forall (rejected (bots self)) d1 /\ accepted (bots self) kv) /\
  (bots_found self arg = Ok false <->
   (exists e, json.loads arg = Raise e) \/
   (exists d, json.loads arg = Ok (VDict d) /\ Forall (rejected (bots self)) d)).
Proof.
  split; split.
  - intros (d & Hl & (d1 & kv & d2 & -> & H1 & Hkv)%any_bot_true)%bots_found_true_inv.
    eauto 6.
  - intros (d1 & kv & d2 & Hl & H1 & Hkv).
    rewrite (bots_found_mapping _ _ _ Hl). apply any_bot_true. eauto 6.
  - intros [? | (d & Hl & Hd%any_bot_false)]%bots_found_false_inv; eauto.
  - intros [[e Hl] | (d & Hl & Hd)].
    + unfold bots_found. by rewrite Hl.
    + rewrite (bots_found_mapping _ _ _ Hl). by apply any_bot_false.
Qed.



